(** * decision_making.cpp: the experiment driver

    A shallow embedding of [run] and of [main] (src/decision_making.cpp),
    and the properties of the round loop, of the success statistics, of the
    configuration handling and of the command line.

    Conventions.
    - [double] values (delta_t, max_simulation_time, timestamp) are
      binary64 floating-point numbers, Rocq's primitive [float], with their
      rounding, infinities and NaN.  The success rate alone is kept as a
      rational: it is the quotient of an integer division, at most 100 in
      every run, and such an integer converts to [double] exactly.
    - [uint64_t] and [int] values are [Z] with the wrap-around written out.
    - yaml-cpp and spdlog are external libraries; the few operations [run]
      and [main] use are modelled in the modules [YAML] and [Spdlog].
    - [Vehicle], [VehicleList], the planner and the environment are declared
      in headers that are not part of this file; their operations are
      parameters of the section [Run].
    - Drawing (matplotlib) is a passive sink and is left out, and with it
      the arguments [save_path], [show_animation] and [save_fig].
    - [getopt_long], [std::stoi], [std::filesystem] and [YAML::LoadFile]
      are taken by what they return: [main] is given the successive
      results of [getopt_long], and the others are parameters. *)

From Stdlib Require Import ZArith QArith Lia Floats.
From stdpp Require Import gmap strings.

Local Open Scope Z_scope.

(** ** Machine integers *)

Definition UINT64_MODULUS : Z := 2 ^ 64.

(** Conversion of an integer value to [uint64_t]. *)
Definition to_uint64 (z : Z) : Z := z mod UINT64_MODULUS.

(** Unsigned 64-bit division; a zero divisor is undefined behaviour. *)
Definition udiv64 (a b : Z) : option Z :=
  if b =? 0 then None else Some (a / b).

(** ** Exceptions *)

Inductive Exception :=
| YAML_Exception (what : string)      (* YAML::Exception and its subclasses *)
| Other_exception (what : string).    (* anything else *)

Inductive result (A : Type) :=
| Ok (a : A)
| Throw (e : Exception).
Arguments Ok {A} a.
Arguments Throw {A} e.

Definition bind {A B : Type} (r : result A) (k : A -> result B) : result B :=
  match r with
  | Ok a => k a
  | Throw e => Throw e
  end.

Notation "'try' x <- r ; k" := (bind r (fun x => k))
  (at level 10, x name, r at level 100, k at level 200).

(** ** yaml-cpp *)

Module YAML.

#[warnings="-register-all"]
Inductive Node :=
| Undefined
| Null
| Scalar (text : string)
| Sequence (items : list Node)
| Map (entries : list (string * Node)).

Definition bad_conversion : Exception := YAML_Exception "bad conversion".
Definition bad_subscript : Exception := YAML_Exception "operator[] call on a scalar".
Definition invalid_node : Exception := YAML_Exception "invalid node".

Fixpoint find (key : string) (entries : list (string * Node)) : option Node :=
match entries with
| [] => None
| (k, v) :: rest => if String.eqb k key then Some v else find key rest
end.

(** [node[key]] on a non-const node with a string key: a missing key gives
  an undefined node, a scalar cannot be subscripted. *)
Definition subscript (node : Node) (key : string) : result Node :=
match node with
| Map entries =>
    match find key entries with
    | Some v => Ok v
    | None => Ok Undefined
    end
| Scalar _ => Throw bad_subscript
| _ => Ok Undefined
end.

Section Decode.
(** The scalar decoders [convert<double>::decode], [convert<int>::decode]. *)
Variable decode_double : string -> option float.
Variable decode_int : string -> option Z.

(** [node.as<double>()] *)
Definition as_double (node : Node) : result float :=
match node with
| Scalar text =>
    match decode_double text with
    | Some d => Ok d
    | None => Throw bad_conversion
    end
| _ => Throw bad_conversion
end.

(** [node.as<int>()] *)
Definition as_int (node : Node) : result Z :=
match node with
| Scalar text =>
    match decode_int text with
    | Some i => Ok i
    | None => Throw bad_conversion
    end
| _ => Throw bad_conversion
end.
End Decode.

(** What a range-for over a node visits: the [first] of each element, as
  [first.as<std::string>()] sees it.  The elements of a sequence have no
  key, so the conversion throws. *)
Definition keys (node : Node) : list (result string) :=
match node with
| Map entries => List.map (fun kv => Ok (fst kv)) entries
| Sequence items => List.map (fun _ => Throw invalid_node) items
| _ => []
end.

End YAML.

(** ** spdlog *)

Module Spdlog.

Inductive level_enum := trace | debug | info | warn | err | critical | off.

Definition level_value (l : level_enum) : Z :=
match l with
| trace => 0 | debug => 1 | info => 2 | warn => 3
| err => 4 | critical => 5 | off => 6
end.

(** [level_enum()]: the enumerator whose value is 0. *)
Definition value_initialized : level_enum := trace.

(** A message of level [msg] is written when the logger level is [lvl]. *)
Definition should_log (lvl msg : level_enum) : bool :=
level_value lvl <=? level_value msg.

End Spdlog.

(** ** main: the log level *)

Definition LOG_LEVEL_DICT : gmap string Spdlog.level_enum :=
  <["trace" := Spdlog.trace]> (<["debug" := Spdlog.debug]>
  (<["info" := Spdlog.info]> (<["warn" := Spdlog.warn]>
  (<["err" := Spdlog.err]> (<["critical" := Spdlog.critical]> ∅))))).

Definition LOG_LEVEL_NAMES : list string :=
  ["trace"; "debug"; "info"; "warn"; "err"; "critical"].

(** [std::unordered_map::operator[]]: a missing key is inserted with a
    value-initialized mapped value, and that value is returned. *)
Definition unordered_map_subscript (m : gmap string Spdlog.level_enum) (key : string)
  : Spdlog.level_enum * gmap string Spdlog.level_enum :=
  match m !! key with
  | Some v => (v, m)
  | None => (Spdlog.value_initialized, <[key := Spdlog.value_initialized]> m)
  end.

(** [spdlog::set_level(LOG_LEVEL_DICT[log_level])]: the level the logger is
    set to, and the dictionary afterwards. *)
Definition main_set_level (log_level : string)
  : Spdlog.level_enum * gmap string Spdlog.level_enum :=
  unordered_map_subscript LOG_LEVEL_DICT log_level.

(** ** run *)

Inductive RoundOutcome :=
| Successed      (* "Round ... successed", the break of line 84 *)
| Failed.        (* "Round ... failed", the break of line 91 *)

(** The result of the tests at the head of the [while (true)] body. *)
Inductive LoopHead :=
| Break (o : RoundOutcome)
| Continue.

(** The three outcomes of the specification (section 4.4), and its
    evaluation of termination at a tick, in its words: all agents at goal,
    else any collision, else time beyond the ceiling, else running.  They
    are compared with [loop_head] below. *)
Inductive SpecOutcome := Succeeded | Collided | TimedOut.

Definition spec_termination {Vehicle : Type}
    (is_all_get_target is_any_collision : list Vehicle -> bool)
    (max_simulation_time : float) (vehicles : list Vehicle) (timestamp : float)
  : option SpecOutcome :=
  if is_all_get_target vehicles then Some Succeeded
  else if is_any_collision vehicles then Some Collided
  else if (max_simulation_time <? timestamp)%float then Some TimedOut
  else None.

(** The messages of [run] that report a result. *)
Inductive LogEvent :=
| Error_parsing_YAML_file (what : string)
| Round_successed (iter : Z) (timestamp : float)
| Round_failed (iter : Z) (timestamp : float)
| Experiment_success (succeed_count rounds_num : Z) (succeed_rate : Q).

(** How a call of [run] ends. *)
Inductive Ending :=
| Returned
| Uncaught (e : Exception)        (* no handler: std::terminate *)
| Division_by_zero.               (* undefined behaviour at line 157 *)

Record RunResult := { log : list LogEvent; ending : Ending }.

(** The number of rounds a log reports the end of. *)
Fixpoint rounds_reported (messages : list LogEvent) : nat :=
  match messages with
  | [] => 0
  | (Round_successed _ _ | Round_failed _ _) :: rest => S (rounds_reported rest)
  | _ :: rest => rounds_reported rest
  end.

Section Run.

Context {Vehicle : Type}.

(** [YAML::convert<double>::decode] and [YAML::convert<int>::decode]. *)
Variable decode_double : string -> option float.
Variable decode_int : string -> option Z.

(** [MonteCarloTreeSearch::initialize(config)]. *)
Variable MonteCarloTreeSearch_initialize : YAML.Node -> result unit.
(** [std::make_shared<Vehicle>(vehicle_name, config)]. *)
Variable Vehicle_new : string -> YAML.Node -> result Vehicle.

(** [vehicles.reset()] in round [iter]. *)
Variable reset : Z -> list Vehicle -> list Vehicle.
Variable is_all_get_target : list Vehicle -> bool.
Variable is_any_collision : list Vehicle -> bool.
(** Lines 95-107: one thread per vehicle runs
    [vehicle->excute(vehicles.exclude(vehicle))] and all threads are
    joined; the list as the last join leaves it.  The round and the tick
    are arguments, so that the result may differ from tick to tick for
    the same list (random rollouts, thread scheduling). *)
Variable excute_threads : Z -> nat -> list Vehicle -> list Vehicle.
(** Lines 139-146: the state of every vehicle is overwritten with the
    states of its footprint, one after the other, to draw them. *)
Variable replay_footprint : list Vehicle -> list Vehicle.

(** *** Lines 49-64: reading the configuration

    The environment and the static data of [VehicleBase] and [Node]
    (lines 54, 55 and 57) are read by the absent classes only; of these
    lines the model keeps the accesses to [config]. *)

Fixpoint make_vehicles (config : YAML.Node) (names : list (result string))
    (vehicles : list Vehicle) : result (list Vehicle) :=
  match names with
  | [] => Ok vehicles
  | first :: rest =>
      try vehicle_name <- first;
      try vehicle <- Vehicle_new vehicle_name config;
      make_vehicles config rest (vehicles ++ [vehicle])
  end.

Definition initialize (config : YAML.Node)
  : result (float * float * list Vehicle) :=
  try n <- YAML.subscript config "delta_t";
  try delta_t <- YAML.as_double decode_double n;
  try n <- YAML.subscript config "max_simulation_time";
  try max_simulation_time <- YAML.as_double decode_double n;
  try n <- YAML.subscript config "map_size";
  try map_size <- YAML.as_double decode_double n;
  try n <- YAML.subscript config "lane_width";
  try lane_width <- YAML.as_double decode_double n;
  try _u <- MonteCarloTreeSearch_initialize config;
  try n <- YAML.subscript config "max_step";
  try max_step <- YAML.as_int decode_int n;
  try n <- YAML.subscript config "vehicle_list";
  try vehicles <- make_vehicles config (YAML.keys n) [];
  Ok (delta_t, max_simulation_time, vehicles).

(** *** Lines 76-134: one round *)

Section Round.

Variable delta_t : float.
Variable max_simulation_time : float.
Variable iter : Z.

(** [timestamp > max_simulation_time], the comparison of two doubles:
    false when either is NaN. *)
Definition timed_out (timestamp : float) : bool :=
  (max_simulation_time <? timestamp)%float.

(** Lines 79-92. *)
Definition loop_head (vehicles : list Vehicle) (timestamp : float) : LoopHead :=
  if is_all_get_target vehicles then Break Successed
  else if is_any_collision vehicles || timed_out timestamp then Break Failed
  else Continue.

(** The [while (true)] loop; [fuel] bounds the number of times its body
    is entered, [ticks] counts the completed bodies.  [timestamp += delta_t]
    is the rounded addition of two doubles. *)
Fixpoint round_loop (fuel : nat) (vehicles : list Vehicle) (timestamp : float)
    (ticks : nat) : option (RoundOutcome * list Vehicle * float * nat) :=
  match fuel with
  | O => None
  | S fuel' =>
      match loop_head vehicles timestamp with
      | Break o => Some (o, vehicles, timestamp, ticks)
      | Continue =>
          round_loop fuel' (excute_threads iter ticks vehicles)
            (timestamp + delta_t)%float (S ticks)
      end
  end.

(** The message written on leaving the loop. *)
Definition round_message (o : RoundOutcome) (timestamp : float) : LogEvent :=
  match o with
  | Successed => Round_successed iter timestamp
  | Failed => Round_failed iter timestamp
  end.

End Round.

(** *** Lines 66-155: the rounds *)

(** [++succeed_count] happens in the success branch only. *)
Definition count_round (o : RoundOutcome) (succeed_count : Z) : Z :=
  match o with
  | Successed => to_uint64 (succeed_count + 1)
  | Failed => succeed_count
  end.

(** [for (uint64_t iter = 0; iter < rounds_num; ++iter)]: [remaining] is
    the number of bodies still to run, [to_uint64 rounds_num - iter]. *)
Fixpoint rounds_loop (delta_t max_simulation_time : float) (fuel : nat)
    (remaining : nat) (iter : Z) (vehicles : list Vehicle)
    (succeed_count : Z) (messages : list LogEvent)
    : option (Z * list LogEvent) :=
  match remaining with
  | O => Some (succeed_count, messages)
  | S remaining' =>
      match round_loop delta_t max_simulation_time iter fuel
              (reset iter vehicles) 0%float 0%nat with
      | None => None
      | Some (o, vehicles', timestamp, _) =>
          rounds_loop delta_t max_simulation_time fuel remaining'
            (to_uint64 (iter + 1))
            (replay_footprint vehicles') (count_round o succeed_count)
            (messages ++ [round_message iter o timestamp])
      end
  end.

(** Line 157: [100 * succeed_count / rounds_num], computed in [uint64_t]
    and then stored in a [double]. *)
Definition succeed_rate (succeed_count rounds_num : Z) : option Q :=
  match udiv64 (to_uint64 (100 * succeed_count)) (to_uint64 rounds_num) with
  | Some q => Some (inject_Z q)
  | None => None
  end.

(** *** run

    [loaded] is what [YAML::LoadFile] returned or threw.  [None]: some
    round is still running after [fuel] loop bodies. *)
Definition run (fuel : nat) (rounds_num : Z) (loaded : result YAML.Node)
  : option RunResult :=
  match loaded with
  | Throw (YAML_Exception what) =>
      Some {| log := [Error_parsing_YAML_file what]; ending := Returned |}
  | Throw e => Some {| log := []; ending := Uncaught e |}
  | Ok config =>
      match initialize config with
      | Throw e => Some {| log := []; ending := Uncaught e |}
      | Ok (delta_t, max_simulation_time, vehicles) =>
          match rounds_loop delta_t max_simulation_time fuel
                  (Z.to_nat (to_uint64 rounds_num)) 0 vehicles 0 [] with
          | None => None
          | Some (succeed_count, messages) =>
              match succeed_rate succeed_count rounds_num with
              | None => Some {| log := messages; ending := Division_by_zero |}
              | Some rate =>
                  Some {| log := messages ++
                                 [Experiment_success succeed_count rounds_num rate];
                          ending := Returned |}
              end
          end
      end
  end.

End Run.

(** The keys of [config["vehicle_list"]], in the order of the file. *)
Definition vehicle_names (config : YAML.Node) : list string :=
  match YAML.subscript config "vehicle_list" with
  | Ok (YAML.Map entries) => List.map fst entries
  | _ => []
  end.

(** ** What the loops leave behind *)

(** The vehicles and the timestamp after [n] bodies of the [while] loop of
    round [iter]. *)
Fixpoint vehicles_after {Vehicle : Type}
    (excute_threads : Z -> nat -> list Vehicle -> list Vehicle) (iter : Z)
    (n : nat) (vehicles : list Vehicle) : list Vehicle :=
  match n with
  | O => vehicles
  | S n' => excute_threads iter n' (vehicles_after excute_threads iter n' vehicles)
  end.

Fixpoint timestamp_after (delta_t : float) (n : nat) : float :=
  match n with
  | O => 0%float
  | S n' => (timestamp_after delta_t n' + delta_t)%float
  end.

(** The number of "successed" messages of a log. *)
Fixpoint successes_reported (messages : list LogEvent) : Z :=
  match messages with
  | [] => 0
  | Round_successed _ _ :: rest => 1 + successes_reported rest
  | _ :: rest => successes_reported rest
  end.

(** The round a message reports the end of. *)
Definition round_index (m : LogEvent) : option Z :=
  match m with
  | Round_successed iter _ | Round_failed iter _ => Some iter
  | _ => None
  end.

(** ** main *)

From Stdlib Require Import Ascii.

(** The local variables of [main] that the options set (lines 166-171). *)
Record Options := {
  rounds_num : Z;
  output_path : string;
  log_level : string;
  config_path : string;
  show_animation : bool;
  save_flag : bool
}.

(** How the option loop of lines 174-197 is left. *)
Inductive OptionLoop :=
| Options_read (o : Options)
| Exit_failure                        (* [exit(EXIT_FAILURE)] *)
| Option_uncaught (e : Exception).    (* [std::stoi] threw *)

(** How [main] ends. *)
Inductive MainEnding :=
| Return_0
| Exited_failure
| Terminated (e : Exception)
| Undefined_division.

(** [level]: the level the logger was set to, if line 199 was reached. *)
Record MainResult := {
  level : option Spdlog.level_enum;
  messages : list LogEvent;
  main_ending : MainEnding
}.

Section Main.

Context {Vehicle : Type}.
Variable decode_double : string -> option float.
Variable decode_int : string -> option Z.
Variable MonteCarloTreeSearch_initialize : YAML.Node -> result unit.
Variable Vehicle_new : string -> YAML.Node -> result Vehicle.
Variable reset : Z -> list Vehicle -> list Vehicle.
Variable is_all_get_target : list Vehicle -> bool.
Variable is_any_collision : list Vehicle -> bool.
Variable excute_threads : Z -> nat -> list Vehicle -> list Vehicle.
Variable replay_footprint : list Vehicle -> list Vehicle.

(** [std::stoi]. *)
Variable stoi : string -> result Z.
(** [utils::absolute_path]. *)
Variable absolute_path : string -> string.
(** [operator/] of [std::filesystem::path]. *)
Variable path_append : string -> string -> string.
(** The parent of the parent of [__FILE__]. *)
Variable project_path : string.
(** [YAML::LoadFile]: what it returns or throws for a path. *)
Variable LoadFile : string -> result YAML.Node.
(** The local time of lines 208-213, as [std::put_time] formats it. *)
Variable put_time : string.
(** [std::filesystem::exists] and [std::filesystem::create_directories]:
    what they return or throw for a path. *)
Variable path_exists : string -> result bool.
Variable create_directories : string -> result unit.

(** Lines 166-171. *)
Definition default_options : Options :=
  {| rounds_num := 5;
     output_path := path_append project_path "logs";
     log_level := "info";
     config_path := "unprotected_left_turn.yaml";
     show_animation := true;
     save_flag := false |}.

(** The [switch] of lines 175-196, for the value [opt] that [getopt_long]
    returned and the [optarg] it set. *)
Definition handle_option (o : Options) (opt : ascii) (optarg : string)
  : OptionLoop :=
  if Ascii.eqb opt "r"%char then
    match stoi optarg with
    | Ok n =>
        Options_read
          {| rounds_num := n; output_path := output_path o;
             log_level := log_level o; config_path := config_path o;
             show_animation := show_animation o; save_flag := save_flag o |}
    | Throw e => Option_uncaught e
    end
  else if Ascii.eqb opt "o"%char then
    Options_read
      {| rounds_num := rounds_num o; output_path := absolute_path optarg;
         log_level := log_level o; config_path := config_path o;
         show_animation := show_animation o; save_flag := save_flag o |}
  else if Ascii.eqb opt "l"%char then
    Options_read
      {| rounds_num := rounds_num o; output_path := output_path o;
         log_level := optarg; config_path := config_path o;
         show_animation := show_animation o; save_flag := save_flag o |}
  else if Ascii.eqb opt "c"%char then
    Options_read
      {| rounds_num := rounds_num o; output_path := output_path o;
         log_level := log_level o; config_path := optarg;
         show_animation := show_animation o; save_flag := save_flag o |}
  else if Ascii.eqb opt "n"%char then
    Options_read
      {| rounds_num := rounds_num o; output_path := output_path o;
         log_level := log_level o; config_path := config_path o;
         show_animation := false; save_flag := save_flag o |}
  else if Ascii.eqb opt "f"%char then
    Options_read
      {| rounds_num := rounds_num o; output_path := output_path o;
         log_level := log_level o; config_path := config_path o;
         show_animation := show_animation o; save_flag := true |}
  else Exit_failure.

(** The [while] loop of line 174 over the successive results of
    [getopt_long], up to its -1. *)
Fixpoint option_loop (o : Options) (opts : list (ascii * string)) : OptionLoop :=
  match opts with
  | [] => Options_read o
  | (opt, optarg) :: rest =>
      match handle_option o opt optarg with
      | Options_read o' => option_loop o' rest
      | stop => stop
      end
  end.

(** Lines 207-218: with [save_flag] the output path gets a directory named
    by the time, which is created unless it exists. *)
Definition prepare_output (o : Options) : result string :=
  if save_flag o then
    let path := path_append (output_path o) put_time in
    try present <- path_exists path;
    if present : bool then Ok path
    else try _u <- create_directories path; Ok path
  else Ok (output_path o).

(** Lines 199-222. *)
Definition main (fuel : nat) (opts : list (ascii * string)) : option MainResult :=
  match option_loop default_options opts with
  | Exit_failure =>
      Some {| level := None; messages := []; main_ending := Exited_failure |}
  | Option_uncaught e =>
      Some {| level := None; messages := []; main_ending := Terminated e |}
  | Options_read o =>
      let set := fst (main_set_level (log_level o)) in
      let path := path_append (path_append project_path "config") (config_path o) in
      match prepare_output o with
      | Throw e =>
          Some {| level := Some set; messages := []; main_ending := Terminated e |}
      | Ok _ =>
          match run decode_double decode_int MonteCarloTreeSearch_initialize
                  Vehicle_new reset is_all_get_target is_any_collision
                  excute_threads replay_footprint fuel (rounds_num o)
                  (LoadFile path) with
          | None => None
          | Some r =>
              Some {| level := Some set;
                      messages := log r;
                      main_ending :=
                        match ending r with
                        | Returned => Return_0
                        | Uncaught e => Terminated e
                        | Division_by_zero => Undefined_division
                        end |}
          end
      end
  end.

End Main.

(** The argument of the last option [opt] of the command line, if any. *)
Fixpoint last_optarg (opt : ascii) (opts : list (ascii * string)) : option string :=
  match opts with
  | [] => None
  | (c, optarg) :: rest =>
      match last_optarg opt rest with
      | Some later => Some later
      | None => if Ascii.eqb c opt then Some optarg else None
      end
  end.

Definition OPTION_CODES : list ascii := ["r"; "o"; "l"; "c"; "n"; "f"]%char.

(** ** An instance to run the model on

    Vehicles are points on a line: every tick moves each of them by
    [speed], a vehicle has reached its target at [goal] or beyond, and it
    collides when it stands on [wall].  A round starts with all vehicles at
    [start iter]. *)

Module Line.

Definition decode_double (text : string) : option float :=
  if String.eqb text "0" then Some 0%float
  else if String.eqb text "0.25" then Some 0.25%float
  else if String.eqb text "1" then Some 1%float
  else if String.eqb text "2" then Some 2%float
  else if String.eqb text "4" then Some 4%float
  else if String.eqb text "5" then Some 5%float
  else if String.eqb text "20" then Some 20%float
  else if String.eqb text ".inf" then Some infinity
  else None.

Definition decode_int (text : string) : option Z :=
  if String.eqb text "8" then Some 8 else None.

Definition config (delta_t max_simulation_time : string) : YAML.Node :=
  YAML.Map
    [("delta_t", YAML.Scalar delta_t);
     ("max_simulation_time", YAML.Scalar max_simulation_time);
     ("map_size", YAML.Scalar "20");
     ("lane_width", YAML.Scalar "4");
     ("max_step", YAML.Scalar "8");
     ("vehicle_list",
      YAML.Map [("vehicle_1", YAML.Null); ("vehicle_2", YAML.Null)])].

(** The same file without its [delta_t] entry. *)
Definition config_without_delta_t : YAML.Node :=
  YAML.Map
    [("max_simulation_time", YAML.Scalar "20");
     ("map_size", YAML.Scalar "20");
     ("lane_width", YAML.Scalar "4");
     ("max_step", YAML.Scalar "8");
     ("vehicle_list",
      YAML.Map [("vehicle_1", YAML.Null); ("vehicle_2", YAML.Null)])].

Definition MonteCarloTreeSearch_initialize (_ : YAML.Node) : result unit := Ok tt.
Definition Vehicle_new (_ : string) (_ : YAML.Node) : result Z := Ok 0.

Section Track.
Variable start : Z -> Z.
Variables speed goal wall : Z.

Definition reset (iter : Z) (vehicles : list Z) : list Z :=
  List.map (fun _ => start iter) vehicles.
Definition is_all_get_target (vehicles : list Z) : bool :=
  forallb (fun x => goal <=? x) vehicles.
Definition is_any_collision (vehicles : list Z) : bool :=
  existsb (fun x => x =? wall) vehicles.
Definition excute_threads (_ : Z) (_ : nat) (vehicles : list Z) : list Z :=
  List.map (Z.add speed) vehicles.
Definition replay_footprint (vehicles : list Z) : list Z := vehicles.

Definition round_loop (delta_t max_simulation_time : float) (fuel : nat) :=
  round_loop is_all_get_target is_any_collision excute_threads
    delta_t max_simulation_time 0 fuel (reset 0 [0; 0]) 0%float 0%nat.

Definition run :=
  run decode_double decode_int MonteCarloTreeSearch_initialize Vehicle_new
    reset is_all_get_target is_any_collision excute_threads replay_footprint.
End Track.

(** Only round 1 starts at the goal. *)
Definition second_round_only (iter : Z) : Z := if iter =? 1 then 2 else 0.

End Line.

(** A command line for the instance: the project lies in [/project], and
    its [config] directory holds one good file and one that does not
    parse. *)

Module CommandLine.

Definition stoi (text : string) : result Z :=
  if String.eqb text "0" then Ok 0
  else if String.eqb text "3" then Ok 3
  else if String.eqb text "7" then Ok 7
  else Throw (Other_exception "stoi").

Definition absolute_path (path : string) : string := path.

Definition path_append (path name : string) : string :=
  String.append path (String.append "/" name).

Definition project_path : string := "/project".

Definition LoadFile (path : string) : result YAML.Node :=
  if String.eqb path "/project/config/unprotected_left_turn.yaml"
  then Ok (Line.config "0.25" "20")
  else Throw (YAML_Exception "bad file").

Definition put_time : string := "2024-01-01-00-00-00".

Definition path_exists (path : string) : result bool := Ok false.

(** Directories can be created below [/project] only. *)
Definition create_directories (path : string) : result unit :=
  if String.prefix "/project/" path then Ok tt
  else Throw (Other_exception "filesystem error").

Definition option_loop := option_loop stoi absolute_path.

Definition default_options := default_options path_append project_path.

Definition main :=
  main Line.decode_double Line.decode_int Line.MonteCarloTreeSearch_initialize
    Line.Vehicle_new (Line.reset Line.second_round_only)
    (Line.is_all_get_target 2) (Line.is_any_collision 1)
    (Line.excute_threads 1) Line.replay_footprint
    stoi absolute_path path_append project_path LoadFile
    put_time path_exists create_directories.

End CommandLine.

(** The result of three rounds on the line of which only the second
    succeeds. *)
Definition three_rounds : RunResult :=
  {| log := [Round_failed 0 0.25; Round_successed 1 0;
             Round_failed 2 0.25; Experiment_success 1 3 33];
     ending := Returned |}.

(** * Properties *)

(** ** Doubles *)


(** ** The round loop *)

Section RoundFacts.

Context {Vehicle : Type}.
Variable is_all_get_target : list Vehicle -> bool.
Variable is_any_collision : list Vehicle -> bool.
Variable excute_threads : Z -> nat -> list Vehicle -> list Vehicle.
Variable delta_t : float.
Variable max_simulation_time : float.
Variable iter : Z.

Local Abbreviation loop_head :=
  (loop_head is_all_get_target is_any_collision max_simulation_time).
Local Abbreviation round_loop :=
  (round_loop is_all_get_target is_any_collision excute_threads
     delta_t max_simulation_time iter).
Local Abbreviation timed_out := (timed_out max_simulation_time).
Local Abbreviation vehicles_after := (vehicles_after excute_threads iter).
Local Abbreviation timestamp_after := (timestamp_after delta_t).

Lemma loop_head_timed_out (vehicles : list Vehicle) (timestamp : float) :
  timed_out timestamp = true ->
  exists o, loop_head vehicles timestamp = Break o.
Proof.
  intros H. unfold loop_head.
  destruct (is_all_get_target vehicles); [eauto|].
  rewrite H, orb_true_r. eauto.
Qed.

(** More fuel does not change a result. *)
Lemma round_loop_fuel_mono (fuel fuel' : nat) vehicles timestamp ticks r :
  round_loop fuel vehicles timestamp ticks = Some r ->
  (fuel <= fuel')%nat ->
  round_loop fuel' vehicles timestamp ticks = Some r.
Proof.
  revert fuel' vehicles timestamp ticks.
  induction fuel as [|fuel IH]; intros fuel' vehicles timestamp ticks Hr Hle;
    [discriminate|].
  destruct fuel' as [|fuel']; [lia|].
  simpl in *. destruct (loop_head vehicles timestamp); [assumption|].
  apply IH; [assumption|lia].
Qed.

Lemma round_loop_deterministic (fuel fuel' : nat) vehicles timestamp ticks r r' :
  round_loop fuel vehicles timestamp ticks = Some r ->
  round_loop fuel' vehicles timestamp ticks = Some r' ->
  r = r'.
Proof.
  intros H H'.
  apply round_loop_fuel_mono with (fuel' := Nat.max fuel fuel') in H; [|lia].
  apply round_loop_fuel_mono with (fuel' := Nat.max fuel fuel') in H'; [|lia].
  congruence.
Qed.

(** What holds when the loop is left. *)
Lemma round_loop_result (fuel : nat) vehicles timestamp ticks o vehicles' timestamp' ticks' :
  round_loop fuel vehicles timestamp ticks = Some (o, vehicles', timestamp', ticks') ->
  loop_head vehicles' timestamp' = Break o /\ (ticks <= ticks')%nat.
Proof.
  revert vehicles timestamp ticks.
  induction fuel as [|fuel IH]; intros vehicles timestamp ticks Hr; [discriminate|].
  simpl in Hr. destruct (loop_head vehicles timestamp) eqn:Hh.
  - injection Hr as -> -> -> ->. split; [assumption|lia].
  - apply IH in Hr as (Hb & Hle). split; [assumption|lia].
Qed.

(** A tick whose tests say stop bounds the loop: entered after [k] bodies,
    it is left within [n] more when the tests stop at tick [k + n]. *)
Lemma round_loop_stops_by (n k : nat) (start : list Vehicle) (o0 : RoundOutcome) :
  loop_head (vehicles_after (k + n) start) (timestamp_after (k + n)) = Break o0 ->
  exists o vehicles' timestamp' ticks',
    round_loop (S n) (vehicles_after k start) (timestamp_after k) k
      = Some (o, vehicles', timestamp', ticks') /\
    (ticks' <= k + n)%nat.
Proof.
  revert k. induction n as [|n IH]; intros k Hb.
  - rewrite Nat.add_0_r in Hb. cbn [round_loop]. rewrite Hb.
    eexists _, _, _, _. split; [reflexivity|lia].
  - cbn [round_loop].
    destruct (loop_head (vehicles_after k start) (timestamp_after k)) eqn:Hh.
    + eexists _, _, _, _. split; [reflexivity|lia].
    + replace (k + S n)%nat with (S k + n)%nat in Hb by lia.
      destruct (IH (S k) Hb) as (o & vs' & t' & k' & Hr & Hk).
      exists o, vs', t', k'. split; [exact Hr|lia].
Qed.

(** C3, as the code has it: at every tick the tests are made in this
order: all vehicles at their target ends the round as succeeded,
whatever the other tests would say; otherwise a collision, and
otherwise a timestamp beyond [max_simulation_time], ends it as failed,
the same outcome for both; otherwise the threads run, the timestamp
advances by [delta_t] and the loop goes on. *)
Theorem termination_evaluation_order (fuel : nat) vehicles timestamp ticks :
  round_loop (S fuel) vehicles timestamp ticks =
    if is_all_get_target vehicles then Some (Successed, vehicles, timestamp, ticks)
    else if is_any_collision vehicles then Some (Failed, vehicles, timestamp, ticks)
    else if (max_simulation_time <? timestamp)%float
         then Some (Failed, vehicles, timestamp, ticks)
    else round_loop fuel (excute_threads iter ticks vehicles)
           (timestamp + delta_t)%float (S ticks).
Proof.
  cbn [round_loop]. unfold loop_head, timed_out.
  destruct (is_all_get_target vehicles); [reflexivity|].
  destruct (is_any_collision vehicles); [reflexivity|]. simpl.
  destruct (max_simulation_time <? timestamp)%float; reflexivity.
Qed.


(** C2, as the code has it: a round in which some tick meets a stop test
    ends, and it ends in exactly one of two outcomes: succeeded (all
    vehicles at their target) or failed, where failed stands for a
    collision as well as for a timestamp beyond [max_simulation_time]. *)
Theorem round_ends_successed_or_failed (start : list Vehicle) (k : nat)
    (o0 : RoundOutcome) :
  loop_head (vehicles_after k start) (timestamp_after k) = Break o0 ->
  exists o vehicles' timestamp' ticks',
    (ticks' <= k)%nat /\
    (forall fuel, (k < fuel)%nat ->
       round_loop fuel start 0%float 0%nat
         = Some (o, vehicles', timestamp', ticks')) /\
    (forall fuel r, round_loop fuel start 0%float 0%nat = Some r ->
       r = (o, vehicles', timestamp', ticks')) /\
    ((o = Successed /\ is_all_get_target vehicles' = true) \/
     (o = Failed /\ is_all_get_target vehicles' = false /\
      (is_any_collision vehicles' = true \/
       (max_simulation_time <? timestamp')%float = true))).
Proof.
  intros Hb.
  destruct (round_loop_stops_by k 0 start o0 Hb) as (o & vs' & t' & k' & Hr & Hk).
  change (round_loop (S k) start 0%float 0%nat = Some (o, vs', t', k')) in Hr.
  exists o, vs', t', k'. split; [lia|]. split; [|split].
  - intros fuel Hf. apply (round_loop_fuel_mono _ _ _ _ _ _ Hr). lia.
  - intros fuel r Hr'. symmetry. exact (round_loop_deterministic _ _ _ _ _ _ _ Hr Hr').
  - destruct (round_loop_result _ _ _ _ _ _ _ _ Hr) as (Hh & _).
    unfold loop_head in Hh.
    destruct (is_all_get_target vs').
    + left. split; congruence.
    + right. destruct (is_any_collision vs') eqn:Ec; simpl in Hh.
      * repeat split; try congruence. left. reflexivity.
      * destruct (timed_out t') eqn:Et; [|discriminate].
        repeat split; try congruence. right. exact Et.
Qed.

End RoundFacts.
(** ** The success counter and the success rate *)

Lemma to_uint64_range (z : Z) : 0 <= to_uint64 z < UINT64_MODULUS.
Proof. unfold to_uint64, UINT64_MODULUS. apply Z.mod_pos_bound. lia. Qed.

Lemma to_uint64_le (z : Z) : 0 <= z -> to_uint64 z <= z.
Proof. intros H. unfold to_uint64, UINT64_MODULUS. apply Z.mod_le; lia. Qed.

Lemma to_uint64_small (z : Z) : 0 <= z < UINT64_MODULUS -> to_uint64 z = z.
Proof. intros H. unfold to_uint64. apply Z.mod_small. exact H. Qed.

(** One round adds at most one to the counter. *)
Lemma count_round_bounds (o : RoundOutcome) (succeed_count : Z) :
  0 <= succeed_count ->
  0 <= count_round o succeed_count <= succeed_count + 1.
Proof.
  intros H. destruct o; simpl; [|lia].
  pose proof (to_uint64_range (succeed_count + 1)).
  pose proof (to_uint64_le (succeed_count + 1)). lia.
Qed.

Lemma rounds_reported_app (l1 l2 : list LogEvent) :
  rounds_reported (l1 ++ l2) = (rounds_reported l1 + rounds_reported l2)%nat.
Proof.
  induction l1 as [|m l1 IH]; [reflexivity|].
  destruct m; simpl; rewrite IH; reflexivity.
Qed.

(** Without overflow and with a non-zero divisor the rate is the quotient
    of the integer division. *)
Lemma succeed_rate_floor (succeed_count rounds_num : Z) :
  0 < rounds_num < UINT64_MODULUS ->
  0 <= 100 * succeed_count < UINT64_MODULUS ->
  succeed_rate succeed_count rounds_num
    = Some (inject_Z (100 * succeed_count / rounds_num)).
Proof.
  intros Hn Hs. unfold succeed_rate, udiv64.
  rewrite !to_uint64_small by lia.
  destruct (Z.eqb_spec rounds_num 0); [lia|reflexivity].
Qed.

Lemma succeed_rate_zero_rounds (succeed_count rounds_num : Z) :
  succeed_rate succeed_count rounds_num = None <-> to_uint64 rounds_num = 0.
Proof.
  unfold succeed_rate, udiv64.
  destruct (Z.eqb_spec (to_uint64 rounds_num) 0); split; congruence.
Qed.

Lemma succeed_rate_at_most_100 (succeed_count rounds_num : Z) (rate : Q) :
  0 <= succeed_count <= to_uint64 rounds_num ->
  succeed_rate succeed_count rounds_num = Some rate ->
  (0 <= rate <= 100)%Q.
Proof.
  intros Hs. unfold succeed_rate, udiv64.
  destruct (Z.eqb_spec (to_uint64 rounds_num) 0) as [|Hne]; [discriminate|].
  intros [= <-].
  pose proof (to_uint64_range rounds_num) as Hr.
  pose proof (to_uint64_range (100 * succeed_count)) as Hp.
  pose proof (to_uint64_le (100 * succeed_count)) as Hle.
  change 0%Q with (inject_Z 0). change 100%Q with (inject_Z 100).
  rewrite <- !Zle_Qle. split.
  - apply Z.div_pos; lia.
  - apply Z.div_le_upper_bound; lia.
Qed.

Section RunFacts.

Context {Vehicle : Type}.
Variable decode_double : string -> option float.
Variable decode_int : string -> option Z.
Variable MonteCarloTreeSearch_initialize : YAML.Node -> result unit.
Variable Vehicle_new : string -> YAML.Node -> result Vehicle.
Variable reset : Z -> list Vehicle -> list Vehicle.
Variable is_all_get_target : list Vehicle -> bool.
Variable is_any_collision : list Vehicle -> bool.
Variable excute_threads : Z -> nat -> list Vehicle -> list Vehicle.
Variable replay_footprint : list Vehicle -> list Vehicle.

Local Abbreviation initialize :=
  (initialize decode_double decode_int MonteCarloTreeSearch_initialize Vehicle_new).
Local Abbreviation rounds_loop :=
  (rounds_loop reset is_all_get_target is_any_collision excute_threads
     replay_footprint).
Local Abbreviation run :=
  (run decode_double decode_int MonteCarloTreeSearch_initialize Vehicle_new
     reset is_all_get_target is_any_collision excute_threads replay_footprint).

(** The counter grows by at most one per round, and every round leaves
    one message. *)
Lemma rounds_loop_count (delta_t max_simulation_time : float) (fuel remaining : nat)
    (iter : Z) vehicles (succeed_count : Z) messages succeed_count' messages' :
  rounds_loop delta_t max_simulation_time fuel remaining iter vehicles
    succeed_count messages = Some (succeed_count', messages') ->
  0 <= succeed_count ->
  0 <= succeed_count' <= succeed_count + Z.of_nat remaining /\
  rounds_reported messages' = (rounds_reported messages + remaining)%nat.
Proof.
  revert iter vehicles succeed_count messages.
  induction remaining as [|remaining IH];
    intros iter vehicles succeed_count messages Hr Hc.
  - simpl in Hr. injection Hr as <- <-. split; lia.
  - cbn [rounds_loop] in Hr.
    destruct (round_loop _ _ _ _ _ _ _ _ _ _) as [[[[o vs'] t'] k']|]; [|discriminate].
    pose proof (count_round_bounds o succeed_count Hc) as Hb.
    apply IH in Hr as [Hc' Hm]; [|lia].
    rewrite rounds_reported_app in Hm.
    split; [lia|]. rewrite Hm. destruct o; simpl; lia.
Qed.

(** C9: the counter is incremented at most once per round, so the count
    that a run reports is at most the number of rounds it ran, and the
    percentage it reports is at most 100. *)
Theorem succeed_count_bounded (fuel : nat) (rounds_num : Z) loaded
    (r : RunResult) (succeed_count n : Z) (rate : Q) :
  run fuel rounds_num loaded = Some r ->
  last (log r) = Some (Experiment_success succeed_count n rate) ->
  0 <= succeed_count <= Z.of_nat (rounds_reported (log r)) /\
  Z.of_nat (rounds_reported (log r)) = to_uint64 rounds_num /\
  (0 <= rate <= 100)%Q.
Proof.
  unfold run. intros Hrun Hlast.
  destruct loaded as [config|[what|what]];
    [|injection Hrun as <-; discriminate|injection Hrun as <-; discriminate].
  destruct (initialize config) as [[[delta_t max_simulation_time] vehicles]|e];
    [|injection Hrun as <-; discriminate].
  destruct (rounds_loop _ _ _ _ _ _ _ _) as [[c messages]|] eqn:Hloop;
    [|discriminate].
  pose proof (rounds_loop_count _ _ _ _ _ _ _ _ _ _ Hloop) as [Hc Hm]; [lia|].
  pose proof (to_uint64_range rounds_num) as Hrange.
  rewrite Z2Nat.id in Hc by lia. simpl in Hm.
  destruct (succeed_rate c rounds_num) as [rate'|] eqn:Hrate.
  - injection Hrun as <-. simpl in *.
    rewrite last_snoc in Hlast. injection Hlast as <- <- <-.
    rewrite rounds_reported_app, Hm. simpl.
    rewrite Nat.add_0_r, Z2Nat.id by lia.
    repeat split; try lia; eapply succeed_rate_at_most_100; eauto; lia.
  - injection Hrun as <-. simpl in *.
    apply succeed_rate_zero_rounds in Hrate. rewrite Hrate in Hloop.
    simpl in Hloop. injection Hloop as <- <-. discriminate.
Qed.

(** C1, what the code does: with zero rounds and a configuration that
    loads, no round is run and line 157 divides by zero; nothing guards
    the division and no configuration error is reported. *)
Theorem zero_rounds_divides_by_zero (fuel : nat) config
    (delta_t max_simulation_time : float) vehicles :
  initialize config = Ok (delta_t, max_simulation_time, vehicles) ->
  run fuel 0 (Ok config) = Some {| log := []; ending := Division_by_zero |}.
Proof.
  intros Hinit. unfold run. rewrite Hinit. reflexivity.
Qed.

(** The handled path: an exception of [YAML::LoadFile] is reported and
    [run] returns. *)
Lemma parse_error_is_reported (fuel : nat) (rounds_num : Z) (what : string) :
  run fuel rounds_num (Throw (YAML_Exception what))
    = Some {| log := [Error_parsing_YAML_file what]; ending := Returned |}.
Proof. reflexivity. Qed.

(** C5, what the code does: when the file loads but lacks one of the
    keys read at lines 49-52, the conversion throws outside the [try]
    block of lines 40-46 and nothing catches the exception. *)
Theorem missing_key_is_uncaught (fuel : nat) (rounds_num : Z)
    (entries : list (string * YAML.Node)) (key : string) :
  List.In key ["delta_t"; "max_simulation_time"; "map_size"; "lane_width"] ->
  YAML.find key entries = None ->
  run fuel rounds_num (Ok (YAML.Map entries))
    = Some {| log := []; ending := Uncaught YAML.bad_conversion |}.
Proof.
  intros Hkey Hfind. unfold run, initialize, YAML.subscript.
  destruct Hkey as [<- | [<- | [<- | [<- | []]]]]; rewrite Hfind;
    repeat first
      [ reflexivity
      | match goal with
        | |- context [YAML.find ?k entries] =>
            destruct (YAML.find k entries) as [[]|]; cbn
        | |- context [decode_double ?text] =>
            destruct (decode_double text); cbn
        end ].
Qed.

End RunFacts.

(** C4, what the code does: the rate is the quotient of an integer
    division.  With three rounds of which one succeeds the run reports 33,
    which is not 100 * 1 / 3. *)
Theorem succeed_rate_is_truncated :
  Line.run Line.second_round_only 1 2 1 10 3 (Ok (Line.config "0.25" "20"))
    = Some {| log := [Round_failed 0 0.25; Round_successed 1 0;
                      Round_failed 2 0.25; Experiment_success 1 3 33];
              ending := Returned |} /\
  succeed_rate 1 3 = Some 33%Q /\
  ~ (33 == 100 * 1 / 3)%Q.
Proof.
  split; [vm_compute; reflexivity|].
  split; [vm_compute; reflexivity|].
  intros H. vm_compute in H. discriminate.
Qed.

(** ** The log level *)

Lemma LOG_LEVEL_DICT_unknown (log_level : string) :
  log_level ∉ LOG_LEVEL_NAMES -> LOG_LEVEL_DICT !! log_level = None.
Proof.
  unfold LOG_LEVEL_NAMES, LOG_LEVEL_DICT. intros H.
  repeat (apply not_elem_of_cons in H as [? H]).
  repeat (rewrite lookup_insert_ne by congruence).
  apply lookup_empty.
Qed.

Lemma LOG_LEVEL_DICT_known :
  List.map (fun name => fst (main_set_level name)) LOG_LEVEL_NAMES
    = [Spdlog.trace; Spdlog.debug; Spdlog.info; Spdlog.warn; Spdlog.err;
       Spdlog.critical].
Proof. vm_compute. reflexivity. Qed.

(** C10: a log level that is none of the six names is not rejected: the
    lookup inserts it with the value-initialized level, whose value is 0,
    that is [trace], and the logger is set to it, so that messages of every
    level are written. *)
Theorem unknown_log_level_sets_trace (log_level : string) :
  log_level ∉ LOG_LEVEL_NAMES ->
  main_set_level log_level
    = (Spdlog.trace, <[log_level := Spdlog.trace]> LOG_LEVEL_DICT) /\
  Spdlog.level_value Spdlog.trace = 0 /\
  (forall l, Spdlog.level_value l = 0 -> l = Spdlog.trace) /\
  (forall msg, Spdlog.should_log (fst (main_set_level log_level)) msg = true).
Proof.
  intros H. apply LOG_LEVEL_DICT_unknown in H.
  unfold main_set_level, unordered_map_subscript. rewrite H.
  repeat split.
  - intros l. destruct l; simpl; congruence.
  - intros msg. destruct msg; reflexivity.
Qed.

(** ** The model at work *)

(** C2, against the claim as it is written: a round that ends by a
    collision before the ceiling and a round that ends by passing the
    ceiling without a collision have the same outcome, [Failed], and leave
    the same message; and with [delta_t = 0] a round need not end at all. *)
Lemma failed_merges_collision_and_timeout :
  let collided := Line.round_loop (fun _ => 0) 1 10 1 2 5 10 in
  let timed_out := Line.round_loop (fun _ => 0) 1 10 100 2 1 10 in
  collided = Some (Failed, [1; 1], 2%float, 1%nat) /\
  (Line.is_any_collision 1 [1; 1] = true /\ (5 <? 2)%float = false) /\
  timed_out = Some (Failed, [1; 1], 2%float, 1%nat) /\
  (Line.is_any_collision 100 [1; 1] = false /\ (1 <? 2)%float = true) /\
  collided = timed_out /\
  round_message 0 Failed 2%float = Round_failed 0 2%float /\
  (forall fuel, Line.round_loop (fun _ => 0) 0 10 100 0 1 fuel = None).
Proof.
  cbv zeta. repeat split; try (vm_compute; reflexivity).
  intros fuel. unfold Line.round_loop.
  change (Line.reset (fun _ => 0) 0 [0; 0]) with [0; 0].
  generalize 0%nat as ticks.
  induction fuel as [|fuel IH]; intros ticks; [reflexivity|].
  cbn [round_loop].
  change (loop_head (Line.is_all_get_target 10) (Line.is_any_collision 100) 1
            [0; 0] 0%float) with Continue.
  change (Line.excute_threads 0 0 ticks [0; 0]) with [0; 0].
  change (0 + 0)%float with 0%float. apply IH.
Qed.

(** C3, against the claim as it is written: the result of the tests at
    the loop head does not determine the outcome of the specification.  On
    a track with the wall at 1 and a ceiling of 5, two vehicles on the wall
    at time 2 are [Collided] and two vehicles off the wall at time 6 are
    [TimedOut], and [loop_head] is [Break Failed] for both. *)
Lemma loop_head_merges_collided_and_timed_out :
  ~ exists interpret : LoopHead -> option SpecOutcome,
      forall (vehicles : list Z) (timestamp : float),
        interpret (loop_head (Line.is_all_get_target 10)
                     (Line.is_any_collision 1) 5 vehicles timestamp)
        = spec_termination (Line.is_all_get_target 10)
            (Line.is_any_collision 1) 5 vehicles timestamp.
Proof.
  intros [interpret H].
  pose proof (H [1; 1] 2%float) as Hcollided.
  pose proof (H [0; 0] 6%float) as Htimed_out.
  vm_compute in Hcollided, Htimed_out. congruence.
Qed.



Lemma round_ends_successed_or_failed_witness :
  exists o vehicles' timestamp' ticks',
    (ticks' <= 3)%nat /\
    forall fuel, (3 < fuel)%nat ->
      Line.round_loop (fun _ => 0) 1 3 100 0.25 20 fuel
        = Some (o, vehicles', timestamp', ticks').
Proof.
  destruct (round_ends_successed_or_failed (Line.is_all_get_target 3)
              (Line.is_any_collision 100) (Line.excute_threads 1) 0.25 20 0
              (Line.reset (fun _ => 0) 0 [0; 0]) 3 Successed)
    as (o & vs & t & k & Hk & Hr & _); [vm_compute; reflexivity|].
  exists o, vs, t, k. split; [exact Hk|exact Hr].
Defined.

Lemma succeed_count_bounded_witness :
  0 <= 1 <= 3 /\ (0 <= 33 <= 100)%Q.
Proof.
  destruct (succeed_count_bounded Line.decode_double Line.decode_int
              Line.MonteCarloTreeSearch_initialize Line.Vehicle_new
              (Line.reset Line.second_round_only) (Line.is_all_get_target 2)
              (Line.is_any_collision 1) (Line.excute_threads 1)
              Line.replay_footprint
              10 3 (Ok (Line.config "0.25" "20"))
              {| log := [Round_failed 0 0.25; Round_successed 1 0;
                         Round_failed 2 0.25; Experiment_success 1 3 33];
                 ending := Returned |}
              1 3 33%Q)
    as (Hc & _ & Hr); [vm_compute; reflexivity|reflexivity|].
  split; [|exact Hr]. vm_compute in Hc. exact Hc.
Defined.

Lemma zero_rounds_divides_by_zero_witness :
  Line.run (fun _ => 0) 1 3 100 10 0 (Ok (Line.config "0.25" "20"))
    = Some {| log := []; ending := Division_by_zero |}.
Proof.
  apply (zero_rounds_divides_by_zero Line.decode_double Line.decode_int
           Line.MonteCarloTreeSearch_initialize Line.Vehicle_new
           (Line.reset (fun _ => 0)) (Line.is_all_get_target 3)
           (Line.is_any_collision 100) (Line.excute_threads 1)
           Line.replay_footprint 10 (Line.config "0.25" "20") 0.25 20 [0; 0]).
  reflexivity.
Defined.

Lemma missing_key_is_uncaught_witness :
  Line.run (fun _ => 0) 1 3 100 10 5 (Ok Line.config_without_delta_t)
    = Some {| log := []; ending := Uncaught YAML.bad_conversion |}.
Proof.
  apply (missing_key_is_uncaught Line.decode_double Line.decode_int
           Line.MonteCarloTreeSearch_initialize Line.Vehicle_new
           (Line.reset (fun _ => 0)) (Line.is_all_get_target 3)
           (Line.is_any_collision 100) (Line.excute_threads 1)
           Line.replay_footprint 10 5 _ "delta_t").
  - left. reflexivity.
  - reflexivity.
Defined.

Lemma unknown_log_level_sets_trace_witness :
  ("verbose" ∉ LOG_LEVEL_NAMES) /\
  fst (main_set_level "verbose") = Spdlog.trace.
Proof.
  assert (H : "verbose" ∉ LOG_LEVEL_NAMES).
  { unfold LOG_LEVEL_NAMES. intros H.
    repeat (apply elem_of_cons in H as [H|H]; [discriminate H|]).
    apply elem_of_nil in H. exact H. }
  split; [exact H|].
  destruct (unknown_log_level_sets_trace "verbose" H) as [-> _]. reflexivity.
Defined.

(** * Further properties *)

(** ** The course of a round *)

Section RoundCourse.

Context {Vehicle : Type}.
Variable is_all_get_target : list Vehicle -> bool.
Variable is_any_collision : list Vehicle -> bool.
Variable excute_threads : Z -> nat -> list Vehicle -> list Vehicle.
Variable delta_t : float.
Variable max_simulation_time : float.
Variable iter : Z.

Local Abbreviation loop_head :=
  (loop_head is_all_get_target is_any_collision max_simulation_time).
Local Abbreviation round_loop :=
  (round_loop is_all_get_target is_any_collision excute_threads
     delta_t max_simulation_time iter).
Local Abbreviation vehicles_after := (vehicles_after excute_threads iter).
Local Abbreviation timestamp_after := (timestamp_after delta_t).

(** The loop, entered after [k] bodies, runs on until the first tick whose
    tests say stop. *)
Lemma round_loop_from (fuel : nat) (start : list Vehicle) (k : nat)
    o vehicles' timestamp' (k' : nat) :
  round_loop fuel (vehicles_after k start) (timestamp_after k) k
    = Some (o, vehicles', timestamp', k') ->
  (k <= k')%nat /\
  vehicles' = vehicles_after k' start /\
  timestamp' = timestamp_after k' /\
  loop_head vehicles' timestamp' = Break o /\
  forall j, (k <= j < k')%nat ->
    loop_head (vehicles_after j start) (timestamp_after j) = Continue.
Proof.
  revert k. induction fuel as [|fuel IH]; intros k Hr; [discriminate|].
  cbn [round_loop] in Hr.
  destruct (loop_head (vehicles_after k start) (timestamp_after k)) eqn:Hh.
  - injection Hr as <- <- <- <-. repeat split; try assumption; try lia.
  - change (round_loop fuel (vehicles_after (S k) start) (timestamp_after (S k)) (S k)
            = Some (o, vehicles', timestamp', k')) in Hr.
    apply IH in Hr as (Hle & Hv & Ht & Hb & Hc).
    repeat split; try assumption; try lia.
    intros j Hj. destruct (Nat.eq_dec j k) as [->|Hne]; [exact Hh|].
    apply Hc. lia.
Qed.

(** The converse: when tick [k] is the first whose tests say stop, the
    loop returns there as soon as the fuel allows [k] bodies. *)
Lemma round_loop_reaches (start : list Vehicle) (o : RoundOutcome) (n k : nat) :
  (forall j, (k <= j < k + n)%nat ->
     loop_head (vehicles_after j start) (timestamp_after j) = Continue) ->
  loop_head (vehicles_after (k + n) start) (timestamp_after (k + n)) = Break o ->
  forall fuel, (n < fuel)%nat ->
    round_loop fuel (vehicles_after k start) (timestamp_after k) k
      = Some (o, vehicles_after (k + n) start, timestamp_after (k + n), (k + n)%nat).
Proof.
  revert k. induction n as [|n IH]; intros k Hc Hb fuel Hf;
    (destruct fuel as [|fuel]; [lia|]); cbn [round_loop].
  - rewrite Nat.add_0_r in *. rewrite Hb. reflexivity.
  - rewrite (Hc k) by lia.
    change (round_loop fuel (vehicles_after (S k) start) (timestamp_after (S k)) (S k)
            = Some (o, vehicles_after (k + S n) start, timestamp_after (k + S n),
                    (k + S n)%nat)).
    replace (k + S n)%nat with (S k + n)%nat in * by lia.
    apply IH; [|assumption|lia]. intros j Hj. apply Hc. lia.
Qed.

(** X1: a round ends at the first tick whose tests say stop: the vehicles
    and the timestamp it ends with are those after [ticks'] loop bodies,
    the tests stop there, and they let every earlier tick continue. *)
Theorem round_stops_at_first_break (fuel : nat) (start : list Vehicle)
    o vehicles' timestamp' (ticks' : nat) :
  round_loop fuel start 0%float 0%nat = Some (o, vehicles', timestamp', ticks') ->
  vehicles' = vehicles_after ticks' start /\
  timestamp' = timestamp_after ticks' /\
  loop_head vehicles' timestamp' = Break o /\
  forall j, (j < ticks')%nat ->
    loop_head (vehicles_after j start) (timestamp_after j) = Continue.
Proof.
  intros Hr.
  apply (round_loop_from fuel start 0) in Hr as (_ & Hv & Ht & Hb & Hc).
  repeat split; try assumption. intros j Hj. apply Hc. lia.
Qed.

(** X2: the converse.  If the tests stop at tick [k] with outcome [o] and
    let every earlier tick continue, the round ends there with [o], for
    every fuel that allows [k] bodies. *)
Theorem first_break_ends_round (start : list Vehicle) (o : RoundOutcome)
    (k fuel : nat) :
  (forall j, (j < k)%nat ->
     loop_head (vehicles_after j start) (timestamp_after j) = Continue) ->
  loop_head (vehicles_after k start) (timestamp_after k) = Break o ->
  (k < fuel)%nat ->
  round_loop fuel start 0%float 0%nat
    = Some (o, vehicles_after k start, timestamp_after k, k).
Proof.
  intros Hc Hb Hf.
  apply (round_loop_reaches start o k 0); try assumption.
  intros j Hj. apply Hc. lia.
Qed.

(** X3: the simulation time a round is reported with is the sum that
    [ticks'] additions of [delta_t] give in the arithmetic of doubles;
    unless the round ended before its first tick, it is one [delta_t]
    after a timestamp that was not beyond [max_simulation_time]; and a
    round that failed without a collision is beyond it. *)
Theorem round_time_within_one_step (fuel : nat) (start : list Vehicle)
    o vehicles' timestamp' (ticks' : nat) :
  round_loop fuel start 0%float 0%nat = Some (o, vehicles', timestamp', ticks') ->
  timestamp' = timestamp_after ticks' /\
  (ticks' = 0%nat \/
   exists previous,
     timestamp' = (previous + delta_t)%float /\
     (max_simulation_time <? previous)%float = false) /\
  (o = Successed \/ is_any_collision vehicles' = true \/
   (max_simulation_time <? timestamp')%float = true).
Proof.
  intros Hr.
  apply (round_loop_from fuel start 0) in Hr as (_ & Hv & Ht & Hb & Hc).
  split; [exact Ht|]. split.
  - destruct ticks' as [|k]; [left; reflexivity|right].
    exists (timestamp_after k). split; [exact Ht|].
    specialize (Hc k ltac:(lia)). unfold loop_head in Hc.
    destruct (is_all_get_target _); [discriminate|].
    destruct (is_any_collision _); [discriminate|]. simpl in Hc.
    unfold timed_out in Hc.
    destruct (max_simulation_time <? timestamp_after k)%float;
      [discriminate|reflexivity].
  - unfold loop_head in Hb.
    destruct (is_all_get_target vehicles'); [left; congruence|].
    destruct (is_any_collision vehicles'); [right; left; reflexivity|].
    simpl in Hb. right. right. unfold timed_out in Hb.
    destruct (max_simulation_time <? timestamp')%float; [reflexivity|discriminate].
Qed.

End RoundCourse.

(** ** The log of a run *)

Lemma successes_reported_app (l1 l2 : list LogEvent) :
  successes_reported (l1 ++ l2) = successes_reported l1 + successes_reported l2.
Proof.
  induction l1 as [|m l1 IH]; [reflexivity|].
  destruct m; cbn [app successes_reported]; rewrite IH; lia.
Qed.

Lemma successes_reported_bounds (l : list LogEvent) :
  0 <= successes_reported l <= Z.of_nat (length l).
Proof.
  induction l as [|m l IH]; [simpl; lia|].
  destruct m; cbn [successes_reported length]; lia.
Qed.

Section RunLog.

Context {Vehicle : Type}.
Variable decode_double : string -> option float.
Variable decode_int : string -> option Z.
Variable MonteCarloTreeSearch_initialize : YAML.Node -> result unit.
Variable Vehicle_new : string -> YAML.Node -> result Vehicle.
Variable reset : Z -> list Vehicle -> list Vehicle.
Variable is_all_get_target : list Vehicle -> bool.
Variable is_any_collision : list Vehicle -> bool.
Variable excute_threads : Z -> nat -> list Vehicle -> list Vehicle.
Variable replay_footprint : list Vehicle -> list Vehicle.

Local Abbreviation initialize :=
  (initialize decode_double decode_int MonteCarloTreeSearch_initialize Vehicle_new).
Local Abbreviation rounds_loop :=
  (rounds_loop reset is_all_get_target is_any_collision excute_threads
     replay_footprint).
Local Abbreviation run :=
  (run decode_double decode_int MonteCarloTreeSearch_initialize Vehicle_new
     reset is_all_get_target is_any_collision excute_threads replay_footprint).

(** What the loop over the rounds appends to the log and adds to the
    counter. *)
Lemma rounds_loop_log (delta_t max_simulation_time : float) (fuel remaining : nat)
    (iter : Z) vehicles (succeed_count : Z) log0 succeed_count' log' :
  rounds_loop delta_t max_simulation_time fuel remaining iter vehicles
    succeed_count log0 = Some (succeed_count', log') ->
  0 <= iter -> iter + Z.of_nat remaining < UINT64_MODULUS ->
  0 <= succeed_count -> succeed_count + Z.of_nat remaining < UINT64_MODULUS ->
  exists rounds,
    log' = log0 ++ rounds /\
    List.map round_index rounds
      = List.map (fun i => Some (iter + Z.of_nat i)) (List.seq 0 remaining) /\
    succeed_count' = succeed_count + successes_reported rounds.
Proof.
  revert iter vehicles succeed_count log0.
  induction remaining as [|remaining IH];
    intros iter vehicles succeed_count log0 Hr Hi Hin Hc Hcn.
  - simpl in Hr. injection Hr as <- <-. exists [].
    rewrite app_nil_r. simpl. repeat split; lia.
  - cbn [rounds_loop] in Hr.
    destruct (round_loop _ _ _ _ _ _ _ _ _ _) as [[[[o vs'] t'] k']|]; [|discriminate].
    assert (Hiter : to_uint64 (iter + 1) = iter + 1)
      by (apply to_uint64_small; lia).
    assert (Hcount : 0 <= count_round o succeed_count <= succeed_count + 1 /\
                     count_round o succeed_count
                     = succeed_count + successes_reported [round_message iter o t']).
    { destruct o; simpl; [|lia]. rewrite to_uint64_small by lia. lia. }
    destruct Hcount as [Hcb Hce].
    rewrite Hiter in Hr.
    apply IH in Hr as (rounds & Hlog & Hidx & Hcnt); try lia.
    exists (round_message iter o t' :: rounds).
    split; [|split].
    + rewrite Hlog, <- app_assoc. reflexivity.
    + cbn [List.map List.seq]. f_equal.
      * destruct o; simpl; f_equal; lia.
      * rewrite Hidx, <- seq_shift, List.map_map.
        apply List.map_ext. intros i. f_equal. lia.
    + rewrite Hcnt, Hce.
      change (round_message iter o t' :: rounds)
        with ([round_message iter o t'] ++ rounds).
      rewrite successes_reported_app. lia.
Qed.

(** What a run that gets to line 157 has logged. *)
Lemma run_rounds (fuel : nat) (rounds_num : Z) config (r : RunResult) x :
  initialize config = Ok x ->
  run fuel rounds_num (Ok config) = Some r ->
  exists rounds,
    List.map round_index rounds
      = List.map (fun i => Some (Z.of_nat i))
          (List.seq 0 (Z.to_nat (to_uint64 rounds_num))) /\
    match succeed_rate (successes_reported rounds) rounds_num with
    | Some rate =>
        r = {| log := rounds ++
                 [Experiment_success (successes_reported rounds) rounds_num rate];
               ending := Returned |}
    | None => r = {| log := rounds; ending := Division_by_zero |}
    end.
Proof.
  intros Hinit Hrun. unfold run in Hrun. rewrite Hinit in Hrun.
  destruct x as [[delta_t max_simulation_time] vehicles].
  destruct (rounds_loop _ _ _ _ _ _ _ _) as [[c log']|] eqn:Hloop; [|discriminate].
  pose proof (to_uint64_range rounds_num) as Hrange.
  apply rounds_loop_log in Hloop as (rounds & Hlog & Hidx & Hc);
    rewrite ?Z2Nat.id; try lia.
  rewrite Z.add_0_l in Hc. simpl in Hlog. subst c log'.
  exists rounds. split; [exact Hidx|].
  destruct (succeed_rate (successes_reported rounds) rounds_num);
    injection Hrun as <-; reflexivity.
Qed.

(** X4: a run that reaches its summary has logged, before it, exactly one
    message per round, for the rounds 0, 1, ... in this order, as many as
    [rounds_num] converted to [uint64_t]. *)
Theorem one_message_per_round (fuel : nat) (rounds_num : Z) config
    (r : RunResult) x :
  initialize config = Ok x ->
  run fuel rounds_num (Ok config) = Some r ->
  ending r = Returned ->
  exists rounds summary,
    log r = rounds ++ [summary] /\
    round_index summary = None /\
    length rounds = Z.to_nat (to_uint64 rounds_num) /\
    List.map round_index rounds
      = List.map (fun i => Some (Z.of_nat i)) (List.seq 0 (length rounds)).
Proof.
  intros Hinit Hrun Hend.
  destruct (run_rounds _ _ _ _ _ Hinit Hrun) as (rounds & Hidx & Hr).
  assert (Hlen : length rounds = Z.to_nat (to_uint64 rounds_num)).
  { rewrite <- (List.length_map round_index rounds), Hidx,
      List.length_map, List.length_seq. reflexivity. }
  destruct (succeed_rate _ _) as [rate|]; subst r; [|discriminate].
  eexists rounds, _. split; [reflexivity|]. split; [reflexivity|].
  split; [exact Hlen|]. rewrite Hlen. exact Hidx.
Qed.

(** X5: the count of the summary is the number of "successed" messages of
    the log, not just a bound of it. *)
Theorem succeed_count_is_successes_logged (fuel : nat) (rounds_num : Z) config
    (r : RunResult) x (succeed_count n : Z) (rate : Q) :
  initialize config = Ok x ->
  run fuel rounds_num (Ok config) = Some r ->
  last (log r) = Some (Experiment_success succeed_count n rate) ->
  succeed_count = successes_reported (log r) /\ n = rounds_num.
Proof.
  intros Hinit Hrun Hlast.
  destruct (run_rounds _ _ _ _ _ Hinit Hrun) as (rounds & Hidx & Hr).
  destruct (succeed_rate _ _) as [rate'|] eqn:Hrate; subst r; simpl in *.
  - rewrite last_snoc in Hlast. injection Hlast as <- <- <-.
    rewrite successes_reported_app. simpl. split; [lia|reflexivity].
  - apply succeed_rate_zero_rounds in Hrate. rewrite Hrate in Hidx.
    destruct rounds; [discriminate|discriminate].
Qed.

(** X6: when a run comes to line 157, that is when all its rounds have
    ended, and the round count is in the range of [int], the division by
    zero happens for [rounds_num = 0] only; for every other count, the
    negative ones too, the summary is logged and [run] returns. *)
Theorem division_by_zero_only_for_zero_rounds (fuel : nat) (rounds_num : Z)
    config (r : RunResult) x :
  - 2 ^ 31 <= rounds_num < 2 ^ 31 ->
  initialize config = Ok x ->
  run fuel rounds_num (Ok config) = Some r ->
  (rounds_num = 0 /\ ending r = Division_by_zero) \/
  (rounds_num <> 0 /\ ending r = Returned).
Proof.
  intros Hint Hinit Hrun.
  destruct (run_rounds _ _ _ _ _ Hinit Hrun) as (rounds & _ & Hr).
  destruct (succeed_rate _ _) as [rate|] eqn:Hrate; subst r; simpl.
  - right. split; [|reflexivity]. intros ->.
    vm_compute in Hrate. discriminate.
  - left. split; [|reflexivity].
    apply succeed_rate_zero_rounds in Hrate. unfold to_uint64, UINT64_MODULUS in Hrate.
    apply Z.mod_divide in Hrate; [|lia]. destruct Hrate as [q Hq]. lia.
Qed.

(** X7: for a positive round count in the range of [int] the rate of the
    summary is the quotient of [100 * succeed_count] by [rounds_num],
    rounded down, and it is 100 exactly when every round succeeded. *)
Theorem rate_is_quotient (fuel : nat) (rounds_num : Z) config
    (r : RunResult) x (succeed_count n : Z) (rate : Q) :
  0 < rounds_num < 2 ^ 31 ->
  initialize config = Ok x ->
  run fuel rounds_num (Ok config) = Some r ->
  last (log r) = Some (Experiment_success succeed_count n rate) ->
  rate = inject_Z (100 * succeed_count / rounds_num) /\
  (rate == 100 <-> succeed_count = rounds_num)%Q.
Proof.
  intros Hint Hinit Hrun Hlast.
  destruct (run_rounds _ _ _ _ _ Hinit Hrun) as (rounds & Hidx & Hr).
  assert (Hlen : length rounds = Z.to_nat (to_uint64 rounds_num)).
  { rewrite <- (List.length_map round_index rounds), Hidx,
      List.length_map, List.length_seq. reflexivity. }
  pose proof (successes_reported_bounds rounds) as Hb.
  rewrite Hlen, to_uint64_small, Z2Nat.id in Hb
    by (unfold UINT64_MODULUS; lia).
  rewrite succeed_rate_floor in Hr by (unfold UINT64_MODULUS; lia).
  subst r. simpl in Hlast. rewrite last_snoc in Hlast.
  injection Hlast as <- <- <-. split; [reflexivity|].
  change 100%Q with (inject_Z 100). rewrite inject_Z_injective.
  set (s := successes_reported rounds) in *. split.
  - intros H.
    pose proof (Z.mul_div_le (100 * s) rounds_num ltac:(lia)) as Hle.
    rewrite H in Hle. lia.
  - intros Hs. rewrite Hs. apply Z.div_mul. lia.
Qed.

End RunLog.

(** ** Reading the configuration *)

Lemma bind_Ok {A B : Type} (r : result A) (k : A -> result B) (b : B) :
  bind r k = Ok b -> exists a, r = Ok a /\ k a = Ok b.
Proof. destruct r as [a|e]; [eauto|discriminate]. Qed.

Lemma as_double_Ok (decode_double : string -> option float) (config : YAML.Node)
    (key : string) (n : YAML.Node) (d : float) :
  YAML.subscript config key = Ok n ->
  YAML.as_double decode_double n = Ok d ->
  exists entries text,
    config = YAML.Map entries /\
    YAML.find key entries = Some (YAML.Scalar text) /\
    decode_double text = Some d.
Proof.
  intros Hs Ha. destruct n; try discriminate. simpl in Ha.
  destruct (decode_double text) as [d'|] eqn:Hd; [|discriminate].
  injection Ha as ->.
  destruct config; try discriminate. simpl in Hs.
  destruct (YAML.find key entries) as [v|] eqn:Hf; [|discriminate].
  injection Hs as ->. eauto.
Qed.

Lemma as_int_Ok (decode_int : string -> option Z) (config : YAML.Node)
    (key : string) (n : YAML.Node) (i : Z) :
  YAML.subscript config key = Ok n ->
  YAML.as_int decode_int n = Ok i ->
  exists entries text,
    config = YAML.Map entries /\
    YAML.find key entries = Some (YAML.Scalar text) /\
    decode_int text = Some i.
Proof.
  intros Hs Ha. destruct n; try discriminate. simpl in Ha.
  destruct (decode_int text) as [i'|] eqn:Hd; [|discriminate].
  injection Ha as ->.
  destruct config; try discriminate. simpl in Hs.
  destruct (YAML.find key entries) as [v|] eqn:Hf; [|discriminate].
  injection Hs as ->. eauto.
Qed.

Section Configuration.

Context {Vehicle : Type}.
Variable decode_double : string -> option float.
Variable decode_int : string -> option Z.
Variable MonteCarloTreeSearch_initialize : YAML.Node -> result unit.
Variable Vehicle_new : string -> YAML.Node -> result Vehicle.
Variable reset : Z -> list Vehicle -> list Vehicle.
Variable is_all_get_target : list Vehicle -> bool.
Variable is_any_collision : list Vehicle -> bool.
Variable excute_threads : Z -> nat -> list Vehicle -> list Vehicle.
Variable replay_footprint : list Vehicle -> list Vehicle.

Local Abbreviation make_vehicles := (make_vehicles Vehicle_new).
Local Abbreviation initialize :=
  (initialize decode_double decode_int MonteCarloTreeSearch_initialize Vehicle_new).
Local Abbreviation rounds_loop :=
  (rounds_loop reset is_all_get_target is_any_collision excute_threads
     replay_footprint).
Local Abbreviation run :=
  (run decode_double decode_int MonteCarloTreeSearch_initialize Vehicle_new
     reset is_all_get_target is_any_collision excute_threads replay_footprint).

Lemma make_vehicles_of_map (config : YAML.Node)
    (entries : list (string * YAML.Node)) (vehicles vehicles' : list Vehicle) :
  make_vehicles config (YAML.keys (YAML.Map entries)) vehicles = Ok vehicles' ->
  exists created,
    vehicles' = vehicles ++ created /\
    Forall2 (fun name vehicle => Vehicle_new name config = Ok vehicle)
      (List.map fst entries) created.
Proof.
  revert vehicles. induction entries as [|[name node] entries IH]; intros vehicles H.
  - injection H as <-. exists []. rewrite app_nil_r. split; [reflexivity|constructor].
  - cbn [YAML.keys List.map make_vehicles bind fst] in H.
    destruct (Vehicle_new name config) as [vehicle|] eqn:Hnew; [|discriminate].
    cbn [bind] in H. apply IH in H as (created & -> & Hall).
    exists (vehicle :: created). rewrite <- app_assoc. split; [reflexivity|].
    constructor; assumption.
Qed.

Lemma make_vehicles_of_sequence (config : YAML.Node) (items : list YAML.Node)
    (vehicles vehicles' : list Vehicle) :
  make_vehicles config (YAML.keys (YAML.Sequence items)) vehicles = Ok vehicles' ->
  items = [] /\ vehicles' = vehicles.
Proof.
  destruct items; [|discriminate]. intros [= <-]. split; reflexivity.
Qed.

(** X8: a configuration is accepted only if it is a mapping in which
    [delta_t], [max_simulation_time], [map_size] and [lane_width] are
    scalars that decode as [double] and [max_step] is a scalar that decodes
    as [int], and if the planner accepts it; the step and the ceiling of
    the rounds are the decoded [delta_t] and [max_simulation_time]. *)
Theorem initialize_requires_keys (config : YAML.Node)
    (delta_t max_simulation_time : float) (vehicles : list Vehicle) :
  initialize config = Ok (delta_t, max_simulation_time, vehicles) ->
  exists entries,
    config = YAML.Map entries /\
    (exists text, YAML.find "delta_t" entries = Some (YAML.Scalar text) /\
                  decode_double text = Some delta_t) /\
    (exists text, YAML.find "max_simulation_time" entries = Some (YAML.Scalar text) /\
                  decode_double text = Some max_simulation_time) /\
    (exists text d, YAML.find "map_size" entries = Some (YAML.Scalar text) /\
                    decode_double text = Some d) /\
    (exists text d, YAML.find "lane_width" entries = Some (YAML.Scalar text) /\
                    decode_double text = Some d) /\
    (exists text i, YAML.find "max_step" entries = Some (YAML.Scalar text) /\
                    decode_int text = Some i) /\
    MonteCarloTreeSearch_initialize config = Ok tt.
Proof.
  unfold initialize. intros H.
  apply bind_Ok in H as (n1 & Hs1 & H). apply bind_Ok in H as (d1 & Ha1 & H).
  apply bind_Ok in H as (n2 & Hs2 & H). apply bind_Ok in H as (d2 & Ha2 & H).
  apply bind_Ok in H as (n3 & Hs3 & H). apply bind_Ok in H as (d3 & Ha3 & H).
  apply bind_Ok in H as (n4 & Hs4 & H). apply bind_Ok in H as (d4 & Ha4 & H).
  apply bind_Ok in H as ([] & Hm & H).
  apply bind_Ok in H as (n5 & Hs5 & H). apply bind_Ok in H as (i5 & Ha5 & H).
  apply bind_Ok in H as (n6 & Hs6 & H). apply bind_Ok in H as (vs & Hv & H).
  injection H as -> -> ->.
  destruct (as_double_Ok _ _ _ _ _ Hs1 Ha1) as (entries & t1 & -> & Hf1 & Hd1).
  destruct (as_double_Ok _ _ _ _ _ Hs2 Ha2) as (? & t2 & [= <-] & Hf2 & Hd2).
  destruct (as_double_Ok _ _ _ _ _ Hs3 Ha3) as (? & t3 & [= <-] & Hf3 & Hd3).
  destruct (as_double_Ok _ _ _ _ _ Hs4 Ha4) as (? & t4 & [= <-] & Hf4 & Hd4).
  destruct (as_int_Ok _ _ _ _ _ Hs5 Ha5) as (? & t5 & [= <-] & Hf5 & Hd5).
  exists entries. repeat split; eauto.
Qed.

(** X9: the vehicles of an accepted configuration are those that
    [Vehicle] makes for the keys of [vehicle_list], one per key and in the
    order of the file, each from its key and the whole configuration; an
    accepted configuration whose [vehicle_list] is not a mapping has no
    vehicle. *)
Theorem vehicles_follow_vehicle_list (config : YAML.Node)
    (delta_t max_simulation_time : float) (vehicles : list Vehicle) :
  initialize config = Ok (delta_t, max_simulation_time, vehicles) ->
  Forall2 (fun name vehicle => Vehicle_new name config = Ok vehicle)
    (vehicle_names config) vehicles /\
  ((forall entries,
      YAML.subscript config "vehicle_list" <> Ok (YAML.Map entries)) ->
   vehicles = []).
Proof.
  unfold initialize. intros H.
  do 11 (apply bind_Ok in H as (? & _ & H)).
  revert H. unfold vehicle_names.
  destruct (YAML.subscript config "vehicle_list") as [n|e]; [|discriminate].
  cbn [bind]. intros H. apply bind_Ok in H as (vs & Hv & H).
  injection H as _ _ ->.
  destruct n as [| |text|items|entries].
  - injection Hv as <-. split; [constructor|reflexivity].
  - injection Hv as <-. split; [constructor|reflexivity].
  - injection Hv as <-. split; [constructor|reflexivity].
  - apply make_vehicles_of_sequence in Hv as [_ ->]. split; [constructor|reflexivity].
  - apply make_vehicles_of_map in Hv as (created & -> & Hall).
    split; [exact Hall|]. intros Hno. exfalso. apply (Hno entries). reflexivity.
Qed.

(** X10: a file that loads as something else than a mapping (an empty
    file, a scalar, a sequence) is not reported as a configuration error:
    the first access of line 49 throws and nothing catches it. *)
Theorem not_a_mapping_is_uncaught (fuel : nat) (rounds_num : Z)
    (config : YAML.Node) :
  (forall entries, config <> YAML.Map entries) ->
  exists e,
    run fuel rounds_num (Ok config) = Some {| log := []; ending := Uncaught e |} /\
    (e = YAML.bad_conversion \/ e = YAML.bad_subscript).
Proof.
  intros Hmap. unfold run, initialize.
  destruct config as [| |text|items|entries]; cbn; eauto.
  exfalso. apply (Hmap entries). reflexivity.
Qed.

End Configuration.

(** ** Runs that return *)

Section RunReturns.

Context {Vehicle : Type}.
Variable decode_double : string -> option float.
Variable decode_int : string -> option Z.
Variable MonteCarloTreeSearch_initialize : YAML.Node -> result unit.
Variable Vehicle_new : string -> YAML.Node -> result Vehicle.
Variable reset : Z -> list Vehicle -> list Vehicle.
Variable is_all_get_target : list Vehicle -> bool.
Variable is_any_collision : list Vehicle -> bool.
Variable excute_threads : Z -> nat -> list Vehicle -> list Vehicle.
Variable replay_footprint : list Vehicle -> list Vehicle.

Local Abbreviation initialize :=
  (initialize decode_double decode_int MonteCarloTreeSearch_initialize Vehicle_new).
Local Abbreviation rounds_loop :=
  (rounds_loop reset is_all_get_target is_any_collision excute_threads
     replay_footprint).
Local Abbreviation run :=
  (run decode_double decode_int MonteCarloTreeSearch_initialize Vehicle_new
     reset is_all_get_target is_any_collision excute_threads replay_footprint).

Lemma rounds_loop_returns (delta_t max_simulation_time : float)
    (fuel remaining k : nat) :
  timed_out max_simulation_time (timestamp_after delta_t k) = true ->
  (k < fuel)%nat ->
  forall (iter : Z) vehicles (succeed_count : Z) log0,
  exists res,
    rounds_loop delta_t max_simulation_time fuel remaining iter vehicles
      succeed_count log0 = Some res.
Proof.
  intros Hlate Hfuel.
  induction remaining as [|remaining IH]; intros iter vehicles succeed_count log0.
  - simpl. eauto.
  - cbn [rounds_loop].
    destruct (loop_head_timed_out is_all_get_target is_any_collision
                max_simulation_time
                (vehicles_after excute_threads iter k (reset iter vehicles))
                _ Hlate) as [o0 Hb].
    destruct (round_loop_stops_by is_all_get_target is_any_collision
                excute_threads delta_t max_simulation_time iter
                k 0 (reset iter vehicles) o0 Hb)
      as (o & vs' & t' & k' & Hr & _).
    apply round_loop_fuel_mono with (fuel' := fuel) in Hr; [|lia].
    cbn [vehicles_after timestamp_after] in Hr. rewrite Hr. apply IH.
Qed.

(** X11: when the timestamp after [k] additions of the configured
    [delta_t] is beyond the configured [max_simulation_time], every round
    ends within [k] ticks and, for a round count in the range of [int]
    other than 0, [run] logs its summary and returns. *)
Theorem run_returns (fuel k : nat) (rounds_num : Z) (config : YAML.Node)
    (delta_t max_simulation_time : float) (vehicles : list Vehicle) :
  initialize config = Ok (delta_t, max_simulation_time, vehicles) ->
  timed_out max_simulation_time (timestamp_after delta_t k) = true ->
  (k < fuel)%nat ->
  - 2 ^ 31 <= rounds_num < 2 ^ 31 ->
  rounds_num <> 0 ->
  exists r succeed_count rate,
    run fuel rounds_num (Ok config) = Some r /\
    ending r = Returned /\
    last (log r) = Some (Experiment_success succeed_count rounds_num rate).
Proof.
  intros Hinit Hlate Hfuel Hint Hnz. unfold run. rewrite Hinit.
  destruct (rounds_loop_returns delta_t max_simulation_time fuel
              (Z.to_nat (to_uint64 rounds_num)) k Hlate Hfuel 0 vehicles 0 [])
    as [[c log'] ->].
  destruct (succeed_rate c rounds_num) as [rate|] eqn:Hrate.
  - eexists _, c, rate. split; [reflexivity|]. split; [reflexivity|].
    simpl. apply last_snoc.
  - exfalso. apply succeed_rate_zero_rounds in Hrate.
    unfold to_uint64, UINT64_MODULUS in Hrate.
    apply Z.mod_divide in Hrate; [|lia]. destruct Hrate as [q Hq]. lia.
Qed.

End RunReturns.

(** ** The log level, continued *)

(** X12: whatever the [--log_level] argument, the logger is never set to
    [off]; for one of the six names it is set to the level of that name and
    the dictionary stays as it is. *)
Theorem logger_is_never_off (log_level : string) :
  fst (main_set_level log_level) <> Spdlog.off /\
  (log_level ∈ LOG_LEVEL_NAMES ->
   LOG_LEVEL_DICT !! log_level = Some (fst (main_set_level log_level)) /\
   snd (main_set_level log_level) = LOG_LEVEL_DICT).
Proof.
  destruct (decide (log_level ∈ LOG_LEVEL_NAMES)) as [Hin|Hout].
  - assert (H : exists l, LOG_LEVEL_DICT !! log_level = Some l /\ l <> Spdlog.off).
    { unfold LOG_LEVEL_NAMES in Hin.
      repeat (apply elem_of_cons in Hin as [->|Hin];
              [eexists; split; [vm_compute; reflexivity|discriminate]|]).
      apply elem_of_nil in Hin. destruct Hin. }
    destruct H as (l & Hl & Hoff).
    unfold main_set_level, unordered_map_subscript. rewrite Hl. simpl.
    split; [exact Hoff|]. intros _. split; reflexivity.
  - split; [|contradiction].
    apply LOG_LEVEL_DICT_unknown in Hout.
    unfold main_set_level, unordered_map_subscript. rewrite Hout. discriminate.
Qed.

(** ** The command line *)

Section CommandLineFacts.

Context {Vehicle : Type}.
Variable decode_double : string -> option float.
Variable decode_int : string -> option Z.
Variable MonteCarloTreeSearch_initialize : YAML.Node -> result unit.
Variable Vehicle_new : string -> YAML.Node -> result Vehicle.
Variable reset : Z -> list Vehicle -> list Vehicle.
Variable is_all_get_target : list Vehicle -> bool.
Variable is_any_collision : list Vehicle -> bool.
Variable excute_threads : Z -> nat -> list Vehicle -> list Vehicle.
Variable replay_footprint : list Vehicle -> list Vehicle.
Variable stoi : string -> result Z.
Variable absolute_path : string -> string.
Variable path_append : string -> string -> string.
Variable project_path : string.
Variable LoadFile : string -> result YAML.Node.
Variable put_time : string.
Variable path_exists : string -> result bool.
Variable create_directories : string -> result unit.

Local Abbreviation prepare_output :=
  (prepare_output path_append put_time path_exists create_directories).
Local Abbreviation handle_option := (handle_option stoi absolute_path).
Local Abbreviation option_loop := (option_loop stoi absolute_path).
Local Abbreviation default_options := (default_options path_append project_path).
Local Abbreviation main :=
  (main decode_double decode_int MonteCarloTreeSearch_initialize Vehicle_new
     reset is_all_get_target is_any_collision excute_threads replay_footprint
     stoi absolute_path path_append project_path LoadFile
     put_time path_exists create_directories).

Lemma option_loop_app (o o' : Options) (opts rest : list (ascii * string)) :
  option_loop o opts = Options_read o' ->
  option_loop o (opts ++ rest) = option_loop o' rest.
Proof.
  revert o. induction opts as [|[opt optarg] opts IH]; intros o H.
  - injection H as ->. reflexivity.
  - cbn [app option_loop] in *.
    destruct (handle_option o opt optarg); try discriminate. apply IH. exact H.
Qed.

Lemma handle_option_unknown (o : Options) (opt : ascii) (optarg : string) :
  opt ∉ OPTION_CODES -> handle_option o opt optarg = Exit_failure.
Proof.
  unfold OPTION_CODES. intros H.
  repeat (apply not_elem_of_cons in H as [? H]).
  unfold handle_option.
  repeat match goal with
         | |- context [Ascii.eqb opt ?c] =>
             destruct (Ascii.eqb_spec opt c); [congruence|]
         end.
  reflexivity.
Qed.

(** X13: a value of [getopt_long] that is none of the six option letters
    (its '?' for an unknown option or a missing argument) ends the process
    with [exit(EXIT_FAILURE)], whatever follows on the command line: the
    logger level is not set and [run] is not called. *)
Theorem unknown_option_exits (fuel : nat) (before after : list (ascii * string))
    (o : Options) (opt : ascii) (optarg : string) :
  option_loop default_options before = Options_read o ->
  opt ∉ OPTION_CODES ->
  main fuel (before ++ (opt, optarg) :: after)
    = Some {| level := None; messages := []; main_ending := Exited_failure |}.
Proof.
  intros Hbefore Hopt. unfold main.
  rewrite (option_loop_app _ _ _ _ Hbefore). cbn [option_loop].
  rewrite handle_option_unknown by exact Hopt. reflexivity.
Qed.

(** X14: when the configuration file does not parse, and the output
    directory, if one is asked for, could be made, [main] still returns 0:
    the parse error is the only result message handed to the logger, which
    was set to the level that the options chose. *)
Theorem main_returns_0_on_parse_error (fuel : nat) (opts : list (ascii * string))
    (o : Options) (out what : string) :
  option_loop default_options opts = Options_read o ->
  prepare_output o = Ok out ->
  LoadFile (path_append (path_append project_path "config") (config_path o))
    = Throw (YAML_Exception what) ->
  main fuel opts
    = Some {| level := Some (fst (main_set_level (log_level o)));
              messages := [Error_parsing_YAML_file what];
              main_ending := Return_0 |}.
Proof.
  intros Hopts Hout Hload. unfold main. rewrite Hopts, Hout, Hload. reflexivity.
Qed.

(** X17: with [save_fig], when the output directory cannot be looked up
    or made, the exception of [std::filesystem] ends the process: the
    logger level is set, but [run] is not called. *)
Theorem output_directory_failure_terminates (fuel : nat)
    (opts : list (ascii * string)) (o : Options) (e : Exception) :
  option_loop default_options opts = Options_read o ->
  prepare_output o = Throw e ->
  save_flag o = true /\
  main fuel opts
    = Some {| level := Some (fst (main_set_level (log_level o)));
              messages := [];
              main_ending := Terminated e |}.
Proof.
  intros Hopts Hout. split.
  - unfold prepare_output in Hout. destruct (save_flag o); [reflexivity|discriminate].
  - unfold main. rewrite Hopts, Hout. reflexivity.
Qed.

(** X16: a [--rounds] argument that [std::stoi] rejects ends the process
    by the exception, which [main] does not catch, whatever follows on the
    command line: the logger level is not set and [run] is not called. *)
Theorem bad_round_count_terminates (fuel : nat)
    (before after : list (ascii * string)) (o : Options) (optarg : string)
    (e : Exception) :
  option_loop default_options before = Options_read o ->
  stoi optarg = Throw e ->
  main fuel (before ++ ("r"%char, optarg) :: after)
    = Some {| level := None; messages := []; main_ending := Terminated e |}.
Proof.
  intros Hbefore Hstoi. unfold main.
  rewrite (option_loop_app _ _ _ _ Hbefore). cbn [option_loop].
  unfold handle_option. cbn. rewrite Hstoi. reflexivity.
Qed.

(** The options after the loop, from the options before it. *)
Lemma option_loop_fields (o o' : Options) (opts : list (ascii * string)) :
  option_loop o opts = Options_read o' ->
  Forall (fun item => fst item ∈ OPTION_CODES) opts /\
  match last_optarg "r" opts with
  | Some optarg => stoi optarg = Ok (rounds_num o')
  | None => rounds_num o' = rounds_num o
  end /\
  output_path o'
    = match last_optarg "o" opts with
      | Some optarg => absolute_path optarg
      | None => output_path o
      end /\
  log_level o' = default (log_level o) (last_optarg "l" opts) /\
  config_path o' = default (config_path o) (last_optarg "c" opts) /\
  show_animation o'
    = match last_optarg "n" opts with
      | Some _ => false
      | None => show_animation o
      end /\
  save_flag o'
    = match last_optarg "f" opts with
      | Some _ => true
      | None => save_flag o
      end.
Proof.
  revert o. induction opts as [|[opt optarg] opts IH]; intros o H.
  - injection H as ->. simpl. repeat split. constructor.
  - cbn [option_loop] in H.
    destruct (handle_option o opt optarg) as [o1| |] eqn:Hh; try discriminate.
    apply IH in H as (Hall & Hr & Hout & Hl & Hc & Hn & Hf).
    assert (Hcode : opt ∈ OPTION_CODES).
    { destruct (decide (opt ∈ OPTION_CODES)) as [|Hno]; [assumption|].
      rewrite handle_option_unknown in Hh by exact Hno. discriminate. }
    split; [constructor; assumption|].
    cbn [last_optarg].
    destruct (last_optarg "r" opts), (last_optarg "o" opts),
      (last_optarg "l" opts), (last_optarg "c" opts),
      (last_optarg "n" opts), (last_optarg "f" opts);
      cbn [default] in *;
      unfold OPTION_CODES in Hcode;
      repeat (apply elem_of_cons in Hcode as [->|Hcode]);
      try (apply elem_of_nil in Hcode; destruct Hcode);
      cbn in Hh |- *;
      try (destruct (stoi optarg) eqn:Hs; [|discriminate]);
      injection Hh as <-; cbn in *; repeat split; congruence.
Qed.

(** X15: when the option loop is left normally, every value of
    [getopt_long] was one of the six letters, and each variable holds what
    the last option of its letter gave it, or its default when the letter
    did not occur: 5 rounds, the level [info], the file
    [unprotected_left_turn.yaml], animation on, saving off. *)
Theorem options_are_last_given_or_default (opts : list (ascii * string))
    (o : Options) :
  option_loop default_options opts = Options_read o ->
  Forall (fun item => fst item ∈ OPTION_CODES) opts /\
  match last_optarg "r" opts with
  | Some optarg => stoi optarg = Ok (rounds_num o)
  | None => rounds_num o = 5
  end /\
  output_path o
    = match last_optarg "o" opts with
      | Some optarg => absolute_path optarg
      | None => path_append project_path "logs"
      end /\
  log_level o = default "info" (last_optarg "l" opts) /\
  config_path o = default "unprotected_left_turn.yaml" (last_optarg "c" opts) /\
  show_animation o = negb (bool_decide (is_Some (last_optarg "n" opts))) /\
  save_flag o = bool_decide (is_Some (last_optarg "f" opts)).
Proof.
  intros H. apply option_loop_fields in H as (Hall & Hr & Hout & Hl & Hc & Hn & Hf).
  repeat split; try assumption.
  - rewrite Hn. destruct (last_optarg "n" opts); reflexivity.
  - rewrite Hf. destruct (last_optarg "f" opts); reflexivity.
Qed.

End CommandLineFacts.

(** ** The further properties at work *)

Lemma round_stops_at_first_break_witness :
  Line.round_loop (fun _ => 0) 1 3 100 0.25 20 10
    = Some (Successed, [3; 3], 0.75%float, 3%nat) /\
  [3; 3] = vehicles_after (Line.excute_threads 1) 0 3 [0; 0] /\
  loop_head (Line.is_all_get_target 3) (Line.is_any_collision 100) 20
    (vehicles_after (Line.excute_threads 1) 0 2 [0; 0])
    (timestamp_after 0.25 2) = Continue.
Proof.
  assert (H : Line.round_loop (fun _ => 0) 1 3 100 0.25 20 10
              = Some (Successed, [3; 3], 0.75%float, 3%nat))
    by (vm_compute; reflexivity).
  split; [exact H|].
  destruct (round_stops_at_first_break (Line.is_all_get_target 3)
              (Line.is_any_collision 100) (Line.excute_threads 1) 0.25 20 0
              10 [0; 0] Successed [3; 3] 0.75%float 3 H) as (Hv & _ & _ & Hc).
  split; [exact Hv|]. apply Hc. lia.
Defined.

Lemma first_break_ends_round_witness :
  Line.round_loop (fun _ => 0) 1 3 100 0.25 20 10
    = Some (Successed, vehicles_after (Line.excute_threads 1) 0 3 [0; 0],
            timestamp_after 0.25 3, 3%nat).
Proof.
  apply (first_break_ends_round (Line.is_all_get_target 3)
           (Line.is_any_collision 100) (Line.excute_threads 1) 0.25 20 0
           [0; 0] Successed 3 10).
  - intros j Hj. destruct j as [|[|[|j]]]; [reflexivity|reflexivity|reflexivity|lia].
  - reflexivity.
  - lia.
Defined.

Lemma round_time_within_one_step_witness :
  Line.round_loop (fun _ => 0) 1 10 100 2 5 10
    = Some (Failed, [3; 3], 6%float, 3%nat) /\
  6%float = timestamp_after 2 3 /\
  (3%nat = 0%nat \/
   exists previous,
     6%float = (previous + 2)%float /\ (5 <? previous)%float = false) /\
  (Failed = Successed \/ Line.is_any_collision 100 [3; 3] = true \/
   (5 <? 6)%float = true).
Proof.
  assert (H : Line.round_loop (fun _ => 0) 1 10 100 2 5 10
              = Some (Failed, [3; 3], 6%float, 3%nat))
    by (vm_compute; reflexivity).
  split; [exact H|].
  exact (round_time_within_one_step (Line.is_all_get_target 10)
           (Line.is_any_collision 100) (Line.excute_threads 1) 2 5 0
           10 [0; 0] Failed [3; 3] 6%float 3 H).
Defined.

Lemma three_rounds_run :
  Line.run Line.second_round_only 1 2 1 10 3 (Ok (Line.config "0.25" "20"))
    = Some three_rounds.
Proof. vm_compute. reflexivity. Qed.

Lemma three_rounds_initialize :
  initialize Line.decode_double Line.decode_int
    Line.MonteCarloTreeSearch_initialize Line.Vehicle_new
    (Line.config "0.25" "20") = Ok (0.25%float, 20%float, [0; 0]).
Proof. vm_compute. reflexivity. Qed.

Lemma one_message_per_round_witness :
  exists rounds summary,
    log three_rounds = rounds ++ [summary] /\
    round_index summary = None /\
    length rounds = 3%nat.
Proof.
  destruct (one_message_per_round Line.decode_double Line.decode_int
              Line.MonteCarloTreeSearch_initialize Line.Vehicle_new
              (Line.reset Line.second_round_only) (Line.is_all_get_target 2)
              (Line.is_any_collision 1) (Line.excute_threads 1)
              Line.replay_footprint 10 3 (Line.config "0.25" "20")
              three_rounds (0.25%float, 20%float, [0; 0])
              three_rounds_initialize three_rounds_run eq_refl)
    as (rounds & summary & Hlog & Hsum & Hlen & _).
  exists rounds, summary. repeat split; assumption.
Defined.

Lemma succeed_count_is_successes_logged_witness :
  1 = successes_reported (log three_rounds) /\ 3 = 3.
Proof.
  exact (succeed_count_is_successes_logged Line.decode_double Line.decode_int
           Line.MonteCarloTreeSearch_initialize Line.Vehicle_new
           (Line.reset Line.second_round_only) (Line.is_all_get_target 2)
           (Line.is_any_collision 1) (Line.excute_threads 1)
           Line.replay_footprint 10 3 (Line.config "0.25" "20")
           three_rounds (0.25%float, 20%float, [0; 0]) 1 3 33%Q
           three_rounds_initialize three_rounds_run eq_refl).
Defined.

Lemma division_by_zero_only_for_zero_rounds_witness :
  (3 = 0 /\ ending three_rounds = Division_by_zero) \/
  (3 <> 0 /\ ending three_rounds = Returned).
Proof.
  apply (division_by_zero_only_for_zero_rounds Line.decode_double Line.decode_int
           Line.MonteCarloTreeSearch_initialize Line.Vehicle_new
           (Line.reset Line.second_round_only) (Line.is_all_get_target 2)
           (Line.is_any_collision 1) (Line.excute_threads 1)
           Line.replay_footprint 10 3 (Line.config "0.25" "20")
           three_rounds (0.25%float, 20%float, [0; 0])).
  - lia.
  - exact three_rounds_initialize.
  - exact three_rounds_run.
Defined.

Lemma rate_is_quotient_witness :
  33%Q = inject_Z (100 * 1 / 3) /\ ((33 == 100)%Q <-> 1 = 3).
Proof.
  apply (rate_is_quotient Line.decode_double Line.decode_int
           Line.MonteCarloTreeSearch_initialize Line.Vehicle_new
           (Line.reset Line.second_round_only) (Line.is_all_get_target 2)
           (Line.is_any_collision 1) (Line.excute_threads 1)
           Line.replay_footprint 10 3 (Line.config "0.25" "20")
           three_rounds (0.25%float, 20%float, [0; 0]) 1 3 33%Q).
  - lia.
  - exact three_rounds_initialize.
  - exact three_rounds_run.
  - reflexivity.
Defined.

Lemma initialize_requires_keys_witness :
  exists entries,
    Line.config "0.25" "20" = YAML.Map entries /\
    exists text, YAML.find "delta_t" entries = Some (YAML.Scalar text) /\
                 Line.decode_double text = Some 0.25%float.
Proof.
  destruct (initialize_requires_keys Line.decode_double Line.decode_int
              Line.MonteCarloTreeSearch_initialize Line.Vehicle_new
              (Line.config "0.25" "20") 0.25 20 [0; 0]
              three_rounds_initialize)
    as (entries & Hc & Hd & _).
  exists entries. split; assumption.
Defined.

Lemma vehicles_follow_vehicle_list_witness :
  Forall2 (fun name vehicle =>
             Line.Vehicle_new name (Line.config "0.25" "20") = Ok vehicle)
    ["vehicle_1"; "vehicle_2"] [0; 0].
Proof.
  exact (proj1 (vehicles_follow_vehicle_list Line.decode_double Line.decode_int
                  Line.MonteCarloTreeSearch_initialize Line.Vehicle_new
                  (Line.config "0.25" "20") 0.25 20 [0; 0]
                  three_rounds_initialize)).
Defined.

Lemma not_a_mapping_is_uncaught_witness :
  exists e,
    Line.run (fun _ => 0) 1 3 100 10 5 (Ok YAML.Null)
      = Some {| log := []; ending := Uncaught e |} /\
    (e = YAML.bad_conversion \/ e = YAML.bad_subscript).
Proof.
  apply (not_a_mapping_is_uncaught Line.decode_double Line.decode_int
           Line.MonteCarloTreeSearch_initialize Line.Vehicle_new
           (Line.reset (fun _ => 0)) (Line.is_all_get_target 3)
           (Line.is_any_collision 100) (Line.excute_threads 1)
           Line.replay_footprint 10 5 YAML.Null).
  intros entries. discriminate.
Defined.

Lemma run_returns_witness :
  timed_out 20 (timestamp_after 0.25 81) = true /\
  exists r succeed_count rate,
    Line.run (fun _ => 0) 1 3 100 82 3 (Ok (Line.config "0.25" "20")) = Some r /\
    ending r = Returned /\
    last (log r) = Some (Experiment_success succeed_count 3 rate).
Proof.
  assert (H : timed_out 20 (timestamp_after 0.25 81) = true)
    by (vm_compute; reflexivity).
  split; [exact H|].
  apply (run_returns Line.decode_double Line.decode_int
           Line.MonteCarloTreeSearch_initialize Line.Vehicle_new
           (Line.reset (fun _ => 0)) (Line.is_all_get_target 3)
           (Line.is_any_collision 100) (Line.excute_threads 1)
           Line.replay_footprint 82 81 3 (Line.config "0.25" "20")
           0.25 20 [0; 0]).
  - exact three_rounds_initialize.
  - exact H.
  - lia.
  - lia.
  - lia.
Defined.

Lemma logger_is_never_off_witness :
  ("warn" ∈ LOG_LEVEL_NAMES) /\
  LOG_LEVEL_DICT !! "warn" = Some (fst (main_set_level "warn")) /\
  snd (main_set_level "warn") = LOG_LEVEL_DICT.
Proof.
  assert (H : "warn" ∈ LOG_LEVEL_NAMES).
  { unfold LOG_LEVEL_NAMES. do 3 (apply elem_of_cons; right).
    apply elem_of_cons. left. reflexivity. }
  split; [exact H|].
  destruct (logger_is_never_off "warn") as [_ Hknown]. exact (Hknown H).
Defined.

Lemma unknown_option_exits_witness :
  CommandLine.main 10 ([("r"%char, "3")] ++ ("?"%char, "") :: [("f"%char, "")])
    = Some {| level := None; messages := []; main_ending := Exited_failure |}.
Proof.
  eapply (unknown_option_exits Line.decode_double Line.decode_int
            Line.MonteCarloTreeSearch_initialize Line.Vehicle_new
            (Line.reset Line.second_round_only) (Line.is_all_get_target 2)
            (Line.is_any_collision 1) (Line.excute_threads 1)
            Line.replay_footprint CommandLine.stoi CommandLine.absolute_path
            CommandLine.path_append CommandLine.project_path
            CommandLine.LoadFile CommandLine.put_time
           CommandLine.path_exists CommandLine.create_directories 10 [("r"%char, "3")]).
  - reflexivity.
  - unfold OPTION_CODES. intros H.
    repeat (apply elem_of_cons in H as [H|H]; [discriminate H|]).
    apply elem_of_nil in H. exact H.
Defined.

Lemma main_returns_0_on_parse_error_witness :
  CommandLine.main 10
    [("l"%char, "debug"); ("c"%char, "missing.yaml"); ("f"%char, "")]
    = Some {| level := Some Spdlog.debug;
              messages := [Error_parsing_YAML_file "bad file"];
              main_ending := Return_0 |}.
Proof.
  apply (main_returns_0_on_parse_error Line.decode_double Line.decode_int
           Line.MonteCarloTreeSearch_initialize Line.Vehicle_new
           (Line.reset Line.second_round_only) (Line.is_all_get_target 2)
           (Line.is_any_collision 1) (Line.excute_threads 1)
           Line.replay_footprint CommandLine.stoi CommandLine.absolute_path
           CommandLine.path_append CommandLine.project_path
           CommandLine.LoadFile CommandLine.put_time
           CommandLine.path_exists CommandLine.create_directories 10
           [("l"%char, "debug"); ("c"%char, "missing.yaml"); ("f"%char, "")]
           {| rounds_num := 5; output_path := "/project/logs";
              log_level := "debug"; config_path := "missing.yaml";
              show_animation := true; save_flag := true |}
           "/project/logs/2024-01-01-00-00-00" "bad file").
  - reflexivity.
  - reflexivity.
  - reflexivity.
Defined.

Lemma output_directory_failure_terminates_witness :
  CommandLine.main 10 [("o"%char, "/readonly"); ("f"%char, "")]
    = Some {| level := Some Spdlog.info;
              messages := [];
              main_ending := Terminated (Other_exception "filesystem error") |}.
Proof.
  apply (output_directory_failure_terminates Line.decode_double Line.decode_int
           Line.MonteCarloTreeSearch_initialize Line.Vehicle_new
           (Line.reset Line.second_round_only) (Line.is_all_get_target 2)
           (Line.is_any_collision 1) (Line.excute_threads 1)
           Line.replay_footprint CommandLine.stoi CommandLine.absolute_path
           CommandLine.path_append CommandLine.project_path
           CommandLine.LoadFile CommandLine.put_time
           CommandLine.path_exists CommandLine.create_directories 10
           [("o"%char, "/readonly"); ("f"%char, "")]
           {| rounds_num := 5; output_path := "/readonly";
              log_level := "info";
              config_path := "unprotected_left_turn.yaml";
              show_animation := true; save_flag := true |}
           (Other_exception "filesystem error")).
  - reflexivity.
  - reflexivity.
Defined.

Lemma options_are_last_given_or_default_witness :
  CommandLine.stoi "7" = Ok 7 /\
  "debug" = default "info" (Some "debug") /\
  false = negb (bool_decide (is_Some (Some ""))).
Proof.
  destruct (options_are_last_given_or_default CommandLine.stoi
              CommandLine.absolute_path CommandLine.path_append
              CommandLine.project_path
              [("r"%char, "3"); ("l"%char, "debug"); ("r"%char, "7"); ("n"%char, "")]
              {| rounds_num := 7; output_path := "/project/logs";
                 log_level := "debug";
                 config_path := "unprotected_left_turn.yaml";
                 show_animation := false; save_flag := false |}
              eq_refl)
    as (_ & Hr & _ & Hl & _ & Hn & _).
  repeat split; assumption.
Defined.

Lemma bad_round_count_terminates_witness :
  CommandLine.main 10 ([("n"%char, "")] ++ ("r"%char, "many") :: [("f"%char, "")])
    = Some {| level := None; messages := [];
              main_ending := Terminated (Other_exception "stoi") |}.
Proof.
  eapply (bad_round_count_terminates Line.decode_double Line.decode_int
            Line.MonteCarloTreeSearch_initialize Line.Vehicle_new
            (Line.reset Line.second_round_only) (Line.is_all_get_target 2)
            (Line.is_any_collision 1) (Line.excute_threads 1)
            Line.replay_footprint CommandLine.stoi CommandLine.absolute_path
            CommandLine.path_append CommandLine.project_path
            CommandLine.LoadFile CommandLine.put_time
           CommandLine.path_exists CommandLine.create_directories 10 [("n"%char, "")]).
  - reflexivity.
  - reflexivity.
Defined.
